(** * The hash-based fallback embedding server

    A shallow embedding of [embedding-server/simple_embedding_server.py]:
    the text normaliser ([preprocess_text], [tokenize]), the hashed feature
    vectors ([create_embedding]), the clamped dot product
    ([calculate_similarity]) and the two POST handlers
    ([handle_embed_request], [handle_similarity_request]).

    Python values are modelled as the interpreter has them: a [str] is a
    sequence of Unicode code points, an [int] is a [Z], a [float] is an
    element of an arithmetic structure that is instantiated both with IEEE
    binary64 (to run the code) and with the real numbers (to state what the
    code computes when rounding is ignored). *)

From Stdlib Require Import ZArith List Bool String Ascii Lia.
From Stdlib Require Import Reals Lra.
From Stdlib Require Floats Uint63.
Import ListNotations.

Open Scope Z_scope.

(** ** Python strings *)

(** A Python [str]: its code points, in order. *)
Definition str := list Z.

(** An ASCII literal as a [str]. *)
Definition lit (s : string) : str :=
  map (fun a => Z.of_nat (nat_of_ascii a)) (list_ascii_of_string s).

Definition in_range (lo hi c : Z) : bool := (lo <=? c) && (c <=? hi).

(** [Py_UNICODE_ISSPACE]: the code points for which [str.isspace] holds.
    The same test decides [\s] in a [re] pattern over [str], the characters
    removed by [str.strip()] and the separators of [str.split()]. *)
Definition isspace (c : Z) : bool :=
  in_range 0x09 0x0D c || in_range 0x1C 0x20 c || (c =? 0x85) || (c =? 0xA0)
  || (c =? 0x1680) || in_range 0x2000 0x200A c || (c =? 0x2028)
  || (c =? 0x2029) || (c =? 0x202F) || (c =? 0x205F) || (c =? 0x3000).

Definition space : Z := 32.

Definition is_hangul_syllable (c : Z) : bool := in_range 0xAC00 0xD7A3 c.
Definition is_ascii_lower (c : Z) : bool := in_range 97 122 c.
Definition is_ascii_upper (c : Z) : bool := in_range 65 90 c.
Definition is_digit (c : Z) : bool := in_range 48 57 c.

(** What the interpreter the server runs in decides and the program text
    does not: the lower-case mapping of the Unicode database for code points
    outside ASCII (given the text and the position, since the mapping of
    U+03A3 depends on its neighbours), and the value of the builtin [hash] on
    strings, which CPython keys with a secret drawn at process start. *)
Record Runtime : Type := {
  tolower_full : str -> nat -> str;
  str_hash : str -> Z
}.

Fixpoint enumerate_from {A : Type} (start : nat) (l : list A) : list (nat * A) :=
  match l with
  | [] => []
  | x :: l' => (start, x) :: enumerate_from (S start) l'
  end.

(** [enumerate(l)] *)
Definition enumerate {A : Type} (l : list A) : list (nat * A) := enumerate_from 0 l.

Definition ascii_lower (c : Z) : Z := if is_ascii_upper c then c + 32 else c.

(** [text.lower()] *)
Definition str_lower (rt : Runtime) (text : str) : str :=
  flat_map (fun '(i, c) => if c <? 128 then [ascii_lower c] else tolower_full rt text i)
           (enumerate text).

(** The character class [[가-힣a-zA-Z0-9\s]] of the first pattern. *)
Definition kept (c : Z) : bool :=
  is_hangul_syllable c || is_ascii_lower c || is_ascii_upper c || is_digit c || isspace c.

(** [re.sub(r'[^가-힣a-zA-Z0-9\s]', ' ', text)] *)
Definition sub_not_kept (text : str) : str :=
  map (fun c => if kept c then c else space) text.

(** [re.sub(r'\s+', ' ', text)]: the scanner replaces each maximal run of
    white space by one space; [in_run] tells that the previous character
    belonged to a run that has been replaced already. *)
Fixpoint sub_space_runs_from (in_run : bool) (text : str) : str :=
  match text with
  | [] => []
  | c :: rest =>
      if isspace c
      then (if in_run then sub_space_runs_from true rest
            else space :: sub_space_runs_from true rest)
      else c :: sub_space_runs_from false rest
  end.

Definition sub_space_runs (text : str) : str := sub_space_runs_from false text.

Fixpoint lstrip (text : str) : str :=
  match text with
  | [] => []
  | c :: rest => if isspace c then lstrip rest else text
  end.

(** [text.strip()] *)
Definition str_strip (text : str) : str := rev (lstrip (rev (lstrip text))).

(** [text.split()]: the words between runs of white space; [cur] holds the
    word being read, last character first. *)
Fixpoint split_from (cur : str) (text : str) : list str :=
  match text with
  | [] => match cur with [] => [] | _ => [rev cur] end
  | c :: rest =>
      if isspace c
      then match cur with
           | [] => split_from [] rest
           | _ => rev cur :: split_from [] rest
           end
      else split_from (c :: cur) rest
  end.

Definition str_split (text : str) : list str := split_from [] text.

(** [len(word)] *)
Definition len {A : Type} (l : list A) : Z := Z.of_nat (List.length l).

(** ** [SimpleEmbeddingModel]: the normaliser *)

Definition preprocess_text (rt : Runtime) (text : str) : str :=
  let text := str_lower rt text in
  let text := sub_not_kept text in
  let text := str_strip (sub_space_runs text) in
  text.

Definition tokenize (rt : Runtime) (text : str) : list str :=
  let text := preprocess_text rt text in
  let words := str_split text in
  filter (fun word => 2 <=? len word) words.

(** ** [str(i)] for an [int] *)

Fixpoint digits (fuel : nat) (n : Z) (acc : str) : str :=
  match fuel with
  | O => acc
  | S fuel' =>
      let acc' := (48 + n mod 10) :: acc in
      if n <? 10 then acc' else digits fuel' (n / 10) acc'
  end.

Definition str_of_int (n : Z) : str :=
  if n <? 0 then 45 :: digits (S (Z.to_nat (Z.log2 (- n)))) (- n) []
  else digits (S (Z.to_nat (Z.log2 n))) n [].

(** ** The builtin [hash] on [str] in CPython

    CPython 3.11 hashes the bytes of the string's internal buffer with
    SipHash-1-3 under a 128-bit key that is drawn when the process starts
    (or derived from [PYTHONHASHSEED]); the result is a signed 64-bit
    integer. *)

Definition wrap64 (x : Z) : Z := x mod 2 ^ 64.

Definition rotl64 (x b : Z) : Z :=
  wrap64 (Z.lor (Z.shiftl x b) (Z.shiftr x (64 - b))).

Definition sip_state : Type := Z * Z * Z * Z.

Definition half_round (a b c d s t : Z) : sip_state :=
  let a := wrap64 (a + b) in
  let c := wrap64 (c + d) in
  let b := Z.lxor (rotl64 b s) a in
  let d := Z.lxor (rotl64 d t) c in
  let a := rotl64 a 32 in
  (a, b, c, d).

Definition single_round (v : sip_state) : sip_state :=
  let '(v0, v1, v2, v3) := v in
  let '(v0, v1, v2, v3) := half_round v0 v1 v2 v3 13 16 in
  let '(v2, v1, v0, v3) := half_round v2 v1 v0 v3 17 21 in
  (v0, v1, v2, v3).

(** A little-endian sequence of bytes as an unsigned integer. *)
Fixpoint le_word (bytes : list Z) : Z :=
  match bytes with
  | [] => 0
  | b :: rest => b + 256 * le_word rest
  end.

Definition absorb (v : sip_state) (m : Z) : sip_state :=
  let '(v0, v1, v2, v3) := v in
  let '(v0, v1, v2, v3) := single_round (v0, v1, v2, Z.lxor v3 m) in
  (Z.lxor v0 m, v1, v2, v3).

(** The loop over the full 8-byte blocks; it returns the state and the
    bytes left over. *)
Fixpoint absorb_blocks (fuel : nat) (v : sip_state) (src : list Z) : sip_state * list Z :=
  match fuel with
  | O => (v, src)
  | S fuel' =>
      if 8 <=? len src
      then absorb_blocks fuel' (absorb v (le_word (firstn 8 src))) (skipn 8 src)
      else (v, src)
  end.

Definition siphash13 (k0 k1 : Z) (src : list Z) : Z :=
  let b := wrap64 (Z.shiftl (len src) 56) in
  let v0 := Z.lxor k0 0x736f6d6570736575 in
  let v1 := Z.lxor k1 0x646f72616e646f6d in
  let v2 := Z.lxor k0 0x6c7967656e657261 in
  let v3 := Z.lxor k1 0x7465646279746573 in
  let '(v, tail) := absorb_blocks (List.length src) (v0, v1, v2, v3) src in
  let b := Z.lor b (le_word tail) in
  let '(v0, v1, v2, v3) := absorb v b in
  let v2 := Z.lxor v2 0xff in
  let '(v0, v1, v2, v3) := single_round (single_round (single_round (v0, v1, v2, v3))) in
  Z.lxor (Z.lxor v0 v1) (Z.lxor v2 v3).

(** The width in bytes of one character in the string's buffer. *)
Definition unicode_kind (s : str) : Z :=
  let maxchar := fold_right Z.max 0 s in
  if maxchar <? 0x100 then 1 else if maxchar <? 0x10000 then 2 else 4.

Fixpoint le_bytes (width : nat) (c : Z) : list Z :=
  match width with
  | O => []
  | S width' => c mod 256 :: le_bytes width' (c / 256)
  end.

(** The string's buffer on a little-endian machine. *)
Definition unicode_data (s : str) : list Z :=
  flat_map (le_bytes (Z.to_nat (unicode_kind s))) s.

(** The 64-bit word read as a [Py_hash_t]. *)
Definition to_signed64 (x : Z) : Z := if x <? 2 ^ 63 then x else x - 2 ^ 64.

Record hash_secret : Type := { k0 : Z; k1 : Z }.

(** [hash(s)] for a [str] in a process whose secret is [key]. *)
Definition unicode_hash (key : hash_secret) (s : str) : Z :=
  match s with
  | [] => 0
  | _ =>
      let x := to_signed64 (siphash13 (k0 key) (k1 key) (unicode_data s)) in
      if x =? -1 then -2 else x
  end.

(** What [PYTHONHASHSEED=seed] makes of the secret: zero for seed 0,
    otherwise the bytes of a linear congruential generator. *)
Fixpoint lcg_urandom (size : nat) (x : Z) : list Z :=
  match size with
  | O => []
  | S size' =>
      let x := (x * 214013 + 2531011) mod 2 ^ 32 in
      Z.shiftr x 16 mod 256 :: lcg_urandom size' x
  end.

Definition secret_of_seed (seed : Z) : hash_secret :=
  if seed =? 0 then {| k0 := 0; k1 := 0 |}
  else
    let bytes := lcg_urandom 16 seed in
    {| k0 := le_word (firstn 8 bytes); k1 := le_word (skipn 8 bytes) |}.

(** ** Python floats

    The operations the program applies to [float] values.  [of_int] is the
    conversion Python inserts where an [int] meets a [float]; [flt], [fle]
    and [feq] are [<], [<=] and [==]. *)
Class Arith (F : Type) : Type := {
  of_int : Z -> F;
  fadd : F -> F -> F;
  fsub : F -> F -> F;
  fmul : F -> F -> F;
  fdiv : F -> F -> F;
  fsqrt : F -> F;
  flt : F -> F -> bool;
  fle : F -> F -> bool;
  feq : F -> F -> bool
}.

(** The facts about the comparisons that the clamp of
    [calculate_similarity] relies on. *)
Class OrderLaws (F : Type) `{Arith F} : Prop := {
  flt_fle : forall x y : F, flt x y = true -> fle x y = true;
  flt_asym : forall x y : F, flt x y = true -> flt y x = false;
  flt_below_0 : forall x : F, flt x (of_int 0) = true -> flt x (of_int 1) = true;
  fle_0_0 : fle (of_int 0) (of_int 0) = true;
  fle_0_1 : fle (of_int 0) (of_int 1) = true;
  fle_1_1 : fle (of_int 1) (of_int 1) = true;
  flt_0_1 : flt (of_int 0) (of_int 1) = true;
  feq_0_0 : feq (of_int 0) (of_int 0) = true;
  feq_1_1 : feq (of_int 1) (of_int 1) = true;
  flt_total : forall x y : F, feq x x = true -> feq y y = true ->
              flt x y = false -> flt y x = false -> feq y x = true
}.

Definition dimension : Z := 768.

(** [range(n)] *)
Definition range (n : Z) : list Z := map Z.of_nat (seq 0 (Z.to_nat n)).

Section Model.

Context {F : Type} `{Arith F}.

(** The interpreter the server runs in. *)
Variable rt : Runtime.

(** [sum(xs)]: the items are added from the left to the [int] 0, as
    CPython does up to version 3.11; later versions compensate the rounding
    error of a sum of floats, which can change the last bits of a binary64
    result and changes nothing over the real numbers. *)
Definition py_sum (xs : list F) : F := fold_left fadd xs (of_int 0).

(** [min(a, b)] and [max(a, b)]: the first argument is kept unless the
    second is strictly smaller (larger). *)
Definition py_min (a b : F) : F := if flt b a then b else a.
Definition py_max (a b : F) : F := if flt a b then b else a.

(** ** [SimpleEmbeddingModel]: the vectors *)

(** One iteration of the inner loop of [create_embedding]. *)
Definition add_token (i : Z) (value : F) (jt : nat * str) : F :=
  let '(j, token) := jt in
  let hash_val := str_hash rt (token ++ str_of_int i) mod 1000 in
  fadd value (fmul (fdiv (of_int hash_val) (of_int 1000))
                   (fdiv (of_int 1) (of_int (Z.of_nat j + 1)))).

(** The body of the outer loop: the value appended for dimension [i]. *)
Definition component (tokens : list str) (i : Z) : F :=
  let value := fold_left (add_token i) (enumerate tokens) (of_int 0) in
  fdiv value (of_int (Z.max (len tokens) 1)).

(** The list [embedding] when the outer loop has finished. *)
Definition raw_embedding (tokens : list str) : list F :=
  map (component tokens) (range dimension).

(** [math.sqrt(sum(x*x for x in embedding))]; the argument is a sum of
    squares, so [math.sqrt] does not raise. *)
Definition norm (embedding : list F) : F :=
  fsqrt (py_sum (map (fun x => fmul x x) embedding)).

(** The last step of [create_embedding]. *)
Definition normalize (embedding : list F) : list F :=
  let norm := norm embedding in
  if flt (of_int 0) norm then map (fun x => fdiv x norm) embedding else embedding.

Definition create_embedding (text : str) : list F :=
  let tokens := tokenize rt text in
  normalize (raw_embedding tokens).

(** [sum(a * b for a, b in zip(emb1, emb2))] *)
Definition dot (emb1 emb2 : list F) : F :=
  py_sum (map (fun '(a, b) => fmul a b) (combine emb1 emb2)).

Definition calculate_similarity (text1 text2 : str) : F :=
  let emb1 := create_embedding text1 in
  let emb2 := create_embedding text2 in
  let dot_product := dot emb1 emb2 in
  py_max (of_int 0) (py_min (of_int 1) dot_product).

End Model.

(** ** Python objects and exceptions *)

#[local] Set Warnings "-register-all".

(** The exceptions raised inside the [try] blocks of the handlers. *)
Inductive exn : Type :=
| AttributeError (type_name attribute : string)
| NotIterable (type_name : string)
| RequestError (message : str).

Inductive result (A : Type) : Type :=
| Ok (a : A)
| Raise (e : exn).

Arguments Ok {A} a.
Arguments Raise {A} e.

Definition bind {A B : Type} (m : result A) (k : A -> result B) : result B :=
  match m with
  | Ok a => k a
  | Raise e => Raise e
  end.

Notation "x <- m ;; k" := (bind m (fun x => k))
  (at level 61, m at next level, right associativity).

(** A loop whose body may raise stops at the first exception. *)
Fixpoint for_each {A B : Type} (body : A -> result B) (items : list A) : result (list B) :=
  match items with
  | [] => Ok []
  | x :: rest =>
      y <- body x ;;
      ys <- for_each body rest ;;
      Ok (y :: ys)
  end.

Section Server.

Context {F : Type} `{Arith F}.

Variable rt : Runtime.

(** What [json.loads] returns and [json.dumps] accepts.  A [dict] keeps its
    keys in insertion order. *)
Inductive json : Type :=
| JNull
| JBool (b : bool)
| JInt (n : Z)
| JFloat (x : F)
| JStr (s : str)
| JList (items : list json)
| JDict (entries : list (str * json)).

Definition type_name (v : json) : string :=
  match v with
  | JNull => "NoneType"
  | JBool _ => "bool"
  | JInt _ => "int"
  | JFloat _ => "float"
  | JStr _ => "str"
  | JList _ => "list"
  | JDict _ => "dict"
  end.

(** [str(e)] *)
Definition str_of_exn (e : exn) : str :=
  match e with
  | AttributeError ty attribute =>
      lit ("'" ++ ty ++ "' object has no attribute '" ++ attribute ++ "'")
  | NotIterable ty => lit ("'" ++ ty ++ "' object is not iterable")
  | RequestError message => message
  end.

(** The truth value of an object, as [not] and [if] take it. *)
Definition truthy (v : json) : bool :=
  match v with
  | JNull => false
  | JBool b => b
  | JInt n => negb (n =? 0)
  | JFloat x => negb (feq x (of_int 0))
  | JStr s => match s with [] => false | _ => true end
  | JList items => match items with [] => false | _ => true end
  | JDict entries => match entries with [] => false | _ => true end
  end.

(** [a == b] on strings *)
Fixpoint str_eqb (a b : str) : bool :=
  match a, b with
  | [], [] => true
  | x :: a', y :: b' => (x =? y) && str_eqb a' b'
  | _, _ => false
  end.

Fixpoint lookup (key : str) (entries : list (str * json)) : option json :=
  match entries with
  | [] => None
  | (k, v) :: rest => if str_eqb k key then Some v else lookup key rest
  end.

(** [obj.get(key, default)] *)
Definition get (obj : json) (key : str) (default : json) : result json :=
  match obj with
  | JDict entries =>
      match lookup key entries with
      | Some v => Ok v
      | None => Ok default
      end
  | _ => Raise (AttributeError (type_name obj) "get")
  end.

(** The value [obj.get(key, default)] has for a [dict] with these entries. *)
Definition entry_or (entries : list (str * json)) (key : str) (default : json) : json :=
  match lookup key entries with
  | Some v => v
  | None => default
  end.

(** The entries of a [dict] apart from those under [key]. *)
Definition without (key : str) (entries : list (str * json)) : list (str * json) :=
  filter (fun kv => negb (str_eqb (fst kv) key)) entries.

(** The items a [for] loop over the object visits. *)
Definition iter (obj : json) : result (list json) :=
  match obj with
  | JList items => Ok items
  | JStr s => Ok (map (fun c => JStr [c]) s)
  | JDict entries => Ok (map (fun kv => JStr (fst kv)) entries)
  | _ => Raise (NotIterable (type_name obj))
  end.

(** [self.model.create_embedding(text)] for an object of any type: the
    first thing done with [text] is [text.lower()]. *)
Definition create_embedding_of (text : json) : result (list F) :=
  match text with
  | JStr s => Ok (create_embedding rt s)
  | _ => Raise (AttributeError (type_name text) "lower")
  end.

Definition calculate_similarity_of (text1 text2 : json) : result F :=
  match text1, text2 with
  | JStr s1, JStr s2 => Ok (calculate_similarity rt s1 s2)
  | JStr _, _ => Raise (AttributeError (type_name text2) "lower")
  | _, _ => Raise (AttributeError (type_name text1) "lower")
  end.

(** ** [EmbeddingRequestHandler] *)

(** What [send_response_json(data, status_code)] sends. *)
Record response : Type := {
  status_code : Z;
  data : json
}.

(** A field of the object sent, when it is a [dict]. *)
Definition response_field (key : str) (r : response) : option json :=
  match data r with
  | JDict entries => lookup key entries
  | _ => None
  end.

Definition try_except (body : result response) (handler : exn -> response) : response :=
  match body with
  | Ok r => r
  | Raise e => handler e
  end.

Definition model_name : str := lit "simple-korean-embedding".

(** [handle_embed_request]: [request] is the outcome of reading and parsing
    the body, [start_time] and [end_time] are the two readings of the
    clock. *)
Definition handle_embed_request (request : result json) (start_time end_time : F) : response :=
  try_except
    (request_data <- request ;;
     texts <- get request_data (lit "texts") (JList []) ;;
     normalize <- get request_data (lit "normalize") (JBool true) ;;
     if negb (truthy texts)
     then Ok {| status_code := 400;
                data := JDict [(lit "error", JStr (lit "No texts provided"))] |}
     else
       items <- iter texts ;;
       embeddings <- for_each create_embedding_of items ;;
       let processing_time := fsub end_time start_time in
       let response_data :=
         JDict [(lit "embeddings", JList (map (fun e => JList (map JFloat e)) embeddings));
                (lit "model_name", JStr model_name);
                (lit "dimension", JInt dimension);
                (lit "processing_time", JFloat processing_time)] in
       Ok {| status_code := 200; data := response_data |})
    (fun e => {| status_code := 500;
                 data := JDict [(lit "error", JStr (str_of_exn e))] |}).

Definition handle_similarity_request (request : result json) (start_time end_time : F) : response :=
  try_except
    (request_data <- request ;;
     text1 <- get request_data (lit "text1") (JStr []) ;;
     text2 <- get request_data (lit "text2") (JStr []) ;;
     if negb (truthy text1) || negb (truthy text2)
     then Ok {| status_code := 400;
                data := JDict [(lit "error", JStr (lit "Both text1 and text2 are required"))] |}
     else
       similarity <- calculate_similarity_of text1 text2 ;;
       let processing_time := fsub end_time start_time in
       let response_data :=
         JDict [(lit "similarity", JFloat similarity);
                (lit "processing_time", JFloat processing_time)] in
       Ok {| status_code := 200; data := response_data |})
    (fun e => {| status_code := 500;
                 data := JDict [(lit "error", JStr (str_of_exn e))] |}).

End Server.

Arguments json : clear implicits.
Arguments response : clear implicits.
Arguments JNull {F}.
Arguments JBool {F} b.
Arguments JInt {F} n.
Arguments JStr {F} s.

(** ** The two arithmetics *)

(** IEEE binary64, the [float] of CPython.  The program converts only
    integers below 2^63 (feature values, positions, lengths). *)
Definition float_of_int (n : Z) : PrimFloat.float :=
  if n <? 0 then PrimFloat.opp (PrimFloat.of_uint63 (Uint63.of_Z (- n)))
  else PrimFloat.of_uint63 (Uint63.of_Z n).

#[export] Instance float_arith : Arith PrimFloat.float := {|
  of_int := float_of_int;
  fadd := PrimFloat.add;
  fsub := PrimFloat.sub;
  fmul := PrimFloat.mul;
  fdiv := PrimFloat.div;
  fsqrt := PrimFloat.sqrt;
  flt := PrimFloat.ltb;
  fle := PrimFloat.leb;
  feq := PrimFloat.eqb
|}.

Definition Rltb (x y : R) : bool := if Rlt_dec x y then true else false.
Definition Rleb (x y : R) : bool := if Rle_dec x y then true else false.
Definition Reqb (x y : R) : bool := if Req_dec_T x y then true else false.

(** The real numbers: the same program without rounding. *)
#[export] Instance real_arith : Arith R := {|
  of_int := IZR;
  fadd := Rplus;
  fsub := Rminus;
  fmul := Rmult;
  fdiv := Rdiv;
  fsqrt := sqrt;
  flt := Rltb;
  fle := Rleb;
  feq := Reqb
|}.

(** ** Interpreters *)

(** The lower-case mapping of the code points outside ASCII that the
    examples use: the capital letters of Latin-1, U+0130 (dotted capital I)
    and U+212A (Kelvin sign); the other code points used are uncased. *)
Definition ucd_tolower (c : Z) : str :=
  if (in_range 0xC0 0xDE c && negb (c =? 0xD7)) then [c + 32]
  else if c =? 0x130 then [0x69; 0x307]
  else if c =? 0x212A then [0x6B]
  else [c].

(** A CPython process whose hash secret is [key]. *)
Definition cpython (key : hash_secret) : Runtime := {|
  tolower_full := fun text i => ucd_tolower (nth i text 0);
  str_hash := unicode_hash key
|}.

(** An interpreter whose [hash] is constant.  The language asks of [hash]
    only that equal objects have equal values, and CPython lets a build
    supply the string hash of its choice ([Py_HASH_EXTERNAL]). *)
Definition constant_hash (h : Z) : Runtime := {|
  tolower_full := fun text i => ucd_tolower (nth i text 0);
  str_hash := fun _ => h
|}.

(** ** The specification's wording

    The operations as the specification describes them, to be compared with
    the definitions above, which follow the program text. *)
Module Spec.

Definition is_latin_letter (c : Z) : bool := is_ascii_lower c || is_ascii_upper c.

(** A Hangul syllable, a Latin letter or a digit. *)
Definition is_word_char (c : Z) : bool :=
  is_hangul_syllable c || is_latin_letter c || is_digit c.

(** "replace every character that is not a Hangul syllable, a Latin letter,
    a digit, or whitespace with a single space" *)
Definition replace_other (text : str) : str :=
  map (fun c => if is_word_char c || isspace c then c else space) text.

(** "collapse runs of whitespace into one space": a white-space character
    followed by another one disappears, the last one of a run becomes a
    space. *)
Fixpoint collapse_runs (text : str) : str :=
  match text with
  | [] => []
  | c :: rest =>
      if isspace c
      then match rest with
           | c' :: _ => if isspace c' then collapse_runs rest else space :: collapse_runs rest
           | [] => [space]
           end
      else c :: collapse_runs rest
  end.

Fixpoint rstrip (text : str) : str :=
  match text with
  | [] => []
  | c :: rest =>
      match rstrip rest with
      | [] => if isspace c then [] else [c]
      | kept_rest => c :: kept_rest
      end
  end.

(** "trim edges" *)
Definition trim (text : str) : str := rstrip (lstrip text).

(** The maximal non-empty runs of characters that are not separators. *)
Fixpoint fields_from (sep : Z -> bool) (cur : str) (text : str) : list str :=
  match text with
  | [] => match cur with [] => [] | _ => [rev cur] end
  | c :: rest =>
      if sep c
      then match cur with
           | [] => fields_from sep [] rest
           | _ => rev cur :: fields_from sep [] rest
           end
      else fields_from sep (c :: cur) rest
  end.

Definition fields (sep : Z -> bool) (text : str) : list str := fields_from sep [] text.

(** "split on whitespace" *)
Definition split_whitespace (text : str) : list str := fields isspace text.

(** "discard tokens shorter than 2 characters" *)
Definition discard_short (words : list str) : list str :=
  filter (fun w => 2 <=? len w) words.

Definition normalize_and_tokenize (rt : Runtime) (text : str) : list str :=
  discard_short
    (split_whitespace (trim (collapse_runs (replace_other (str_lower rt text))))).

(** The words of a text read directly: the runs of word characters. *)
Definition words (text : str) : list str :=
  fields (fun c => negb (is_word_char c)) text.

Section Vectors.

Context {F : Type} `{Arith F}.

Variable rt : Runtime.

(** The sum of [f 0], ..., [f (n - 1)], in this order. *)
Fixpoint sum_upto (f : nat -> F) (n : nat) : F :=
  match n with
  | O => of_int 0
  | S n' => fadd (sum_upto f n') (f n')
  end.

(** [contribution(token, i, j) = (stable_hash(token ++ str(i)) mod 1000)
    / 1000.0 × 1/(j+1)], the hash being the interpreter's. *)
Definition contribution (token : str) (i : Z) (j : nat) : F :=
  fmul (fdiv (of_int (str_hash rt (token ++ str_of_int i) mod 1000)) (of_int 1000))
       (fdiv (of_int 1) (of_int (Z.of_nat j + 1))).

Definition raw_component (tokens : list str) (i : Z) : F :=
  fdiv (sum_upto (fun j => contribution (nth j tokens []) i j) (List.length tokens))
       (of_int (Z.max (len tokens) 1)).

Definition euclidean_norm (v : list F) : F :=
  fsqrt (sum_upto (fun k => fmul (nth k v (of_int 0)) (nth k v (of_int 0))) (List.length v)).

Definition synthesize (tokens : list str) : list F :=
  let raw := map (raw_component tokens) (range dimension) in
  let n := euclidean_norm raw in
  if flt (of_int 0) n then map (fun x => fdiv x n) raw else raw.

Definition dot_product (a b : list F) : F :=
  sum_upto (fun k => fmul (nth k a (of_int 0)) (nth k b (of_int 0)))
           (Nat.min (List.length a) (List.length b)).

(** A value clamped to [0.0, 1.0]: 0 below 0, 1 above 1, the value itself
    in between. *)
Definition clamp (d : F) : F :=
  if flt d (of_int 0) then of_int 0
  else if flt (of_int 1) d then of_int 1
  else d.

End Vectors.

End Spec.

(** ** Predicates used in the statements *)

(** [any(f(x) for x in l)]: the search stops at the first hit. *)
Fixpoint any {A : Type} (f : A -> bool) (l : list A) : bool :=
  match l with
  | [] => false
  | x :: rest => if f x then true else any f rest
  end.

(** Some hashed feature of some token is not zero. *)
Definition has_feature (rt : Runtime) (tokens : list str) : bool :=
  any (fun i => any (fun token => negb (str_hash rt (token ++ str_of_int i) mod 1000 =? 0)) tokens)
      (range dimension).

(** The sum of the squares of the components. *)
Definition sum_sq (v : list R) : R := py_sum (map (fun x => (x * x)%R) v).

(** The punctuation and the white space of ASCII: everything below 128
    that is neither a letter nor a digit. *)
Definition is_ascii_punct_or_space (c : Z) : bool :=
  in_range 0 127 c && negb (Spec.is_word_char c).

(** [x + tol < y] *)
Definition below {F : Type} `{Arith F} (tol x y : F) : bool := flt (fadd x tol) y.

(** The first is below the second by more than [tol]. *)
Definition apart {F : Type} `{Arith F} (tol x y : F) : bool :=
  below tol x y && negb (below tol y y).


(** The text begins with a white-space character. *)
Definition starts_with_space (text : str) : bool :=
  match text with
  | c :: _ => isspace c
  | [] => false
  end.

(** [sep.join(words)] *)
Fixpoint join (sep : str) (words : list str) : str :=
  match words with
  | [] => []
  | w :: rest =>
      match rest with
      | [] => w
      | _ => w ++ sep ++ join sep rest
      end
  end.

(** A lower-case letter or a digit of ASCII. *)
Definition is_lower_alnum (c : Z) : bool := is_ascii_lower c || is_digit c.

(** Multiplication does not depend on the order of its arguments. *)
Class MulComm (F : Type) `{Arith F} : Prop := {
  fmul_comm : forall x y : F, fmul x y = fmul y x
}.

(** A code point of ASCII. *)
Definition is_ascii (c : Z) : Prop := 0 <= c < 128.

(** The object is a [str]. *)
Definition is_str {F : Type} (v : json F) : bool :=
  match v with
  | JStr _ => true
  | _ => false
  end.

(** The sign bit of a binary64 value is clear: the value is +0.0, a
    positive number, +inf, or not a number. *)
Definition sign_clear (x : PrimFloat.float) : bool :=
  match FloatOps.Prim2SF x with
  | SpecFloat.S754_zero s
  | SpecFloat.S754_infinity s
  | SpecFloat.S754_finite s _ _ => negb s
  | SpecFloat.S754_nan => true
  end.


(** ** The other endpoints of [EmbeddingRequestHandler] *)

Section Endpoints.

Context {F : Type} `{Arith F}.

Variable rt : Runtime.

Definition send_health_response : response F :=
  {| status_code := 200;
     data := JDict [(lit "status", JStr (lit "healthy"));
                    (lit "model_loaded", JBool true);
                    (lit "model_name", JStr model_name)] |}.

Definition send_model_info : response F :=
  {| status_code := 200;
     data := JDict [(lit "model_name", JStr model_name);
                    (lit "dimension", JInt dimension);
                    (lit "max_seq_length", JInt 512)] |}.

Definition send_root_response : response F :=
  {| status_code := 200;
     data := JDict [(lit "message", JStr (lit "Simple Korean Embedding Server"));
                    (lit "model", JStr model_name);
                    (lit "status", JStr (lit "ready"))] |}.

(** What a request is answered with: an object sent by
    [send_response_json], or the error page of [send_error]. *)
Inductive reply : Type :=
| SendJson (r : response F)
| SendError (code : Z) (message : str).

(** [do_GET]; [path] is the path component of the request target,
    [urlparse(self.path).path]. *)
Definition do_GET (path : str) : reply :=
  if str_eqb path (lit "/health") then SendJson send_health_response
  else if str_eqb path (lit "/model-info") then SendJson send_model_info
  else if str_eqb path (lit "/") then SendJson send_root_response
  else SendError 404 (lit "Not Found").

(** [do_POST] *)
Definition do_POST (path : str) (request : result (json F)) (start_time end_time : F) : reply :=
  if str_eqb path (lit "/embed")
  then SendJson (handle_embed_request rt request start_time end_time)
  else if str_eqb path (lit "/similarity")
  then SendJson (handle_similarity_request rt request start_time end_time)
  else SendError 404 (lit "Not Found").

End Endpoints.

Arguments reply : clear implicits.

(** ** The model-backed server, [embedding_server.py]

    The sentence-transformer model is a library object; it enters as a
    record of what the endpoint asks of it. *)
Module ModelServer.

(** What an endpoint function raises: an [HTTPException], which FastAPI
    turns into a response with that status, or another exception. *)
Inductive failure : Type :=
| HTTPException (status_code : Z) (detail : str)
| OtherException (message : str).

Inductive outcome (A : Type) : Type :=
| Returns (a : A)
| Raises (e : failure).

Arguments Returns {A} a.
Arguments Raises {A} e.

Section Endpoint.

Context {F : Type} `{Arith F}.

(** [model.encode(texts, normalize_embeddings=...)] followed by
    [.tolist()], and [model.get_sentence_embedding_dimension()]. *)
Record SentenceTransformer : Type := {
  encode : list str -> bool -> outcome (list (list F));
  get_sentence_embedding_dimension : Z
}.

(** [str(e)], which depends on the version of the web framework for an
    [HTTPException]. *)
Variable str_of_failure : failure -> str.

Record EmbeddingRequest : Type := {
  texts : list str;
  normalize_flag : bool
}.

Record EmbeddingResponse : Type := {
  embeddings : list (list F);
  response_model_name : str;
  response_dimension : Z;
  processing_time : F
}.

Definition served_model_name : str := lit "jhgan/ko-sroberta-multitask".

Definition is_empty (s : str) : bool :=
  match s with
  | [] => true
  | _ => false
  end.

(** The body of the [try] block of [create_embeddings]. *)
Definition create_embeddings_body (model : SentenceTransformer) (request : EmbeddingRequest)
    (start_time end_time : F) : outcome EmbeddingResponse :=
  let texts := map str_strip (filter (fun text => negb (is_empty (str_strip text))) (texts request)) in
  if match texts with [] => true | _ => false end
  then Raises (HTTPException 400 (lit "No valid texts provided"))
  else
    match encode model texts (normalize_flag request) with
    | Raises e => Raises e
    | Returns embeddings_list =>
        Returns {| embeddings := embeddings_list;
                   response_model_name := served_model_name;
                   response_dimension := get_sentence_embedding_dimension model;
                   processing_time := fsub end_time start_time |}
    end.

(** [create_embeddings]; [model] is [None] until the start-up event has
    loaded it. *)
Definition create_embeddings (model : option SentenceTransformer) (request : EmbeddingRequest)
    (start_time end_time : F) : outcome EmbeddingResponse :=
  match model with
  | None => Raises (HTTPException 503 (lit "Model not loaded"))
  | Some m =>
      match create_embeddings_body m request start_time end_time with
      | Returns r => Returns r
      | Raises e =>
          Raises (HTTPException 500 (lit "Embedding generation failed: " ++ str_of_failure e))
      end
  end.

End Endpoint.

End ModelServer.

(** * Properties *)

(** ** The normaliser *)


Lemma word_char_not_space (c : Z) : Spec.is_word_char c = true -> isspace c = false.
Proof.
  unfold Spec.is_word_char, Spec.is_latin_letter, is_hangul_syllable, is_ascii_lower,
    is_ascii_upper, is_digit, isspace, in_range.
  intros Hw.
  repeat rewrite orb_true_iff in Hw. repeat rewrite andb_true_iff in Hw.
  repeat rewrite orb_false_iff. repeat rewrite andb_false_iff.
  repeat rewrite Z.leb_le in Hw.
  repeat rewrite Z.leb_gt. repeat rewrite Z.eqb_neq.
  lia.
Qed.

Lemma kept_word_or_space (c : Z) : kept c = Spec.is_word_char c || isspace c.
Proof.
  unfold kept, Spec.is_word_char, Spec.is_latin_letter.
  now rewrite !orb_assoc.
Qed.

Lemma isspace_space : isspace space = true.
Proof. reflexivity. Qed.

Lemma sub_not_kept_spec (text : str) : sub_not_kept text = Spec.replace_other text.
Proof.
  unfold sub_not_kept, Spec.replace_other.
  apply map_ext. intros c. now rewrite kept_word_or_space.
Qed.

Lemma sub_space_runs_collapse (text : str) :
  sub_space_runs_from false text = Spec.collapse_runs text
  /\ (starts_with_space text = true ->
      Spec.collapse_runs text = space :: sub_space_runs_from true text)
  /\ (starts_with_space text = false ->
      sub_space_runs_from true text = Spec.collapse_runs text).
Proof.
  induction text as [|c rest [IH1 [IH2 IH3]]].
  - repeat split; simpl; intros; congruence.
  - assert (Hrun : isspace c = true ->
                   Spec.collapse_runs (c :: rest) = space :: sub_space_runs_from true rest).
    { intros Hc. simpl. rewrite Hc.
      destruct rest as [|c' rest'].
      - reflexivity.
      - destruct (isspace c') eqn:Hc'.
        + apply IH2. simpl. exact Hc'.
        + f_equal. symmetry. apply IH3. simpl. exact Hc'. }
    repeat split.
    + simpl sub_space_runs_from. destruct (isspace c) eqn:Hc.
      * symmetry. now apply Hrun.
      * simpl. rewrite Hc. now rewrite IH1.
    + simpl starts_with_space. intros Hc. rewrite (Hrun Hc). simpl. now rewrite Hc.
    + simpl starts_with_space. intros Hc. simpl. rewrite Hc. now rewrite IH1.
Qed.

Lemma rstrip_snoc (text : str) (c : Z) :
  Spec.rstrip (text ++ [c]) = if isspace c then Spec.rstrip text else text ++ [c].
Proof.
  induction text as [|d rest IH]; simpl.
  - destruct (isspace c); reflexivity.
  - rewrite IH. destruct (isspace c) eqn:Hc.
    + reflexivity.
    + destruct rest; reflexivity.
Qed.

Lemma rstrip_rev (text : str) : rev (lstrip (rev text)) = Spec.rstrip text.
Proof.
  induction text as [|c rest IH] using rev_ind.
  - reflexivity.
  - rewrite rev_app_distr, rstrip_snoc. simpl.
    destruct (isspace c).
    + exact IH.
    + simpl. now rewrite rev_involutive.
Qed.

Lemma str_strip_spec (text : str) : str_strip text = Spec.trim text.
Proof. unfold str_strip, Spec.trim. apply rstrip_rev. Qed.

Lemma split_from_fields (cur text : str) : split_from cur text = Spec.fields_from isspace cur text.
Proof.
  revert cur. induction text as [|c rest IH]; intros cur; simpl.
  - reflexivity.
  - rewrite !IH. reflexivity.
Qed.

Theorem tokenize_refines (rt : Runtime) (text : str) :
  tokenize rt text = Spec.normalize_and_tokenize rt text.
Proof.
  unfold tokenize, preprocess_text, Spec.normalize_and_tokenize, Spec.discard_short,
    Spec.split_whitespace, Spec.fields, str_split, sub_space_runs.
  rewrite split_from_fields, str_strip_spec, sub_not_kept_spec.
  now rewrite (proj1 (sub_space_runs_collapse _)).
Qed.

(** White space at the edges and the length of its runs do not change
    the words. *)
Lemma split_sub_space_runs (b : bool) (cur text : str) :
  (b = true -> cur = []) ->
  split_from cur (sub_space_runs_from b text) = split_from cur text.
Proof.
  revert b cur. induction text as [|c rest IH]; intros b cur Hb; simpl.
  - reflexivity.
  - destruct (isspace c) eqn:Hc.
    + destruct b.
      * rewrite (Hb eq_refl). now apply IH.
      * simpl. rewrite (IH true []) by reflexivity. reflexivity.
    + simpl. rewrite Hc. apply IH. discriminate.
Qed.

Lemma split_lstrip (text : str) : split_from [] (lstrip text) = split_from [] text.
Proof.
  induction text as [|c rest IH]; simpl.
  - reflexivity.
  - destruct (isspace c) eqn:Hc.
    + exact IH.
    + simpl. now rewrite Hc.
Qed.

Lemma split_rstrip (cur text : str) :
  split_from cur (Spec.rstrip text) = split_from cur text.
Proof.
  revert cur. induction text as [|c rest IH]; intros cur.
  - reflexivity.
  - simpl Spec.rstrip. destruct (Spec.rstrip rest) as [|d kept_rest] eqn:Hr.
    + simpl split_from at 2. destruct (isspace c) eqn:Hc.
      * rewrite <- !IH. simpl. destruct cur; reflexivity.
      * rewrite <- IH. simpl. now rewrite Hc.
    + simpl. destruct (isspace c); rewrite <- !IH; reflexivity.
Qed.

Lemma split_strip (text : str) : str_split (str_strip text) = str_split text.
Proof.
  unfold str_split. rewrite str_strip_spec. unfold Spec.trim.
  now rewrite split_rstrip, split_lstrip.
Qed.

Lemma split_sub_not_kept (cur text : str) :
  split_from cur (sub_not_kept text)
  = Spec.fields_from (fun c => negb (Spec.is_word_char c)) cur text.
Proof.
  revert cur. induction text as [|c rest IH]; intros cur; simpl.
  - reflexivity.
  - rewrite kept_word_or_space.
    destruct (Spec.is_word_char c) eqn:Hw; simpl.
    + rewrite (word_char_not_space c Hw). apply IH.
    + destruct (isspace c) eqn:Hc; simpl.
      * rewrite Hc, !IH. reflexivity.
      * rewrite !IH. reflexivity.
Qed.

Theorem tokenize_words (rt : Runtime) (text : str) :
  tokenize rt text = Spec.discard_short (Spec.words (str_lower rt text)).
Proof.
  unfold tokenize, preprocess_text, Spec.discard_short, Spec.words, Spec.fields.
  rewrite split_strip. unfold str_split, sub_space_runs.
  rewrite split_sub_space_runs by discriminate.
  now rewrite split_sub_not_kept.
Qed.

Lemma fields_all_sep (sep : Z -> bool) (text : str) :
  Forall (fun c => sep c = true) text -> Spec.fields_from sep [] text = [].
Proof.
  induction 1 as [|c rest Hc _ IH]; simpl.
  - reflexivity.
  - now rewrite Hc.
Qed.


Lemma lower_ascii_punct (rt : Runtime) (text whole : str) (start : nat) :
  Forall (fun c => is_ascii_punct_or_space c = true) text ->
  Forall (fun c => Spec.is_word_char c = false)
         (flat_map (fun '(i, c) => if c <? 128 then [ascii_lower c] else tolower_full rt whole i)
                   (enumerate_from start text)).
Proof.
  intros Hall. revert start.
  induction Hall as [|c rest Hc _ IH]; intros start; simpl.
  - constructor.
  - unfold is_ascii_punct_or_space, in_range in Hc.
    apply andb_true_iff in Hc. destruct Hc as [Hrange Hword].
    apply andb_true_iff in Hrange. destruct Hrange as [_ Hhi].
    apply Z.leb_le in Hhi. apply negb_true_iff in Hword.
    replace (c <? 128) with true by (symmetry; apply Z.ltb_lt; lia).
    simpl. constructor.
    + unfold ascii_lower. destruct (is_ascii_upper c) eqn:Hu.
      * unfold Spec.is_word_char, Spec.is_latin_letter in Hword.
        rewrite Hu in Hword. rewrite !orb_true_r in Hword. discriminate.
      * exact Hword.
    + apply IH.
Qed.

Lemma discard_short_length (ws : list str) (w : str) :
  In w (Spec.discard_short ws) -> 2 <= len w.
Proof.
  unfold Spec.discard_short. intros Hin.
  apply filter_In in Hin. destruct Hin as [_ Hlen]. now apply Z.leb_le.
Qed.

(** Claim C6.  [tokenize] is the composition the specification describes:
    lower-casing, replacement of every character that is neither a Hangul
    syllable, a Latin letter, a digit nor white space by a space, collapse
    of white-space runs, trimming, splitting on white space and removal of
    the words shorter than 2.  Its result is the list of the runs of word
    characters of the lower-cased text that have at least 2 characters, and
    it is empty for the empty text and for every text without a word
    character, in particular for punctuation and white space only.  The
    function is total: no input raises. *)
Theorem tokenize_spec (rt : Runtime) (text : str) :
  tokenize rt text = Spec.normalize_and_tokenize rt text
  /\ tokenize rt text = Spec.discard_short (Spec.words (str_lower rt text))
  /\ (forall w, In w (tokenize rt text) -> 2 <= len w)
  /\ tokenize rt [] = []
  /\ (Forall (fun c => Spec.is_word_char c = false) (str_lower rt text) ->
      tokenize rt text = [])
  /\ (Forall (fun c => is_ascii_punct_or_space c = true) text ->
      tokenize rt text = []).
Proof.
  assert (Hnone : Forall (fun c => Spec.is_word_char c = false) (str_lower rt text) ->
                  tokenize rt text = []).
  { intros Hall. rewrite tokenize_words. unfold Spec.words, Spec.fields.
    rewrite fields_all_sep; [reflexivity|].
    eapply Forall_impl; [|exact Hall]. intros c Hc. simpl. now rewrite Hc. }
  repeat split.
  - apply tokenize_refines.
  - apply tokenize_words.
  - intros w. rewrite tokenize_words. apply discard_short_length.
  - exact Hnone.
  - intros Hall. apply Hnone. now apply lower_ascii_punct.
Qed.

Lemma tokenize_spec_witness :
  Forall (fun c => is_ascii_punct_or_space c = true) (lit "?! -- (...)")
  /\ tokenize (cpython (secret_of_seed 0)) (lit "?! -- (...)") = []
  /\ In (lit "world") (tokenize (cpython (secret_of_seed 0)) (lit "Hello, World!"))
  /\ 2 <= len (lit "world").
Proof.
  assert (Hp : Forall (fun c => is_ascii_punct_or_space c = true) (lit "?! -- (...)")).
  { repeat constructor. }
  assert (Hin : In (lit "world") (tokenize (cpython (secret_of_seed 0)) (lit "Hello, World!"))).
  { vm_compute. right. left. reflexivity. }
  pose proof (tokenize_spec (cpython (secret_of_seed 0)) (lit "?! -- (...)")) as H1.
  pose proof (tokenize_spec (cpython (secret_of_seed 0)) (lit "Hello, World!")) as H2.
  split; [exact Hp|]. split; [apply H1; exact Hp|]. split; [exact Hin|].
  apply H2. exact Hin.
Defined.


(** ** The vectors, in any arithmetic *)

Section VectorFacts.

Context {F : Type} `{Arith F}.

Variable rt : Runtime.

Lemma enumerate_from_snoc {A : Type} (l : list A) (x : A) (start : nat) :
  enumerate_from start (l ++ [x]) = enumerate_from start l ++ [((start + List.length l)%nat, x)].
Proof.
  revert start. induction l as [|y l IH]; intros start; simpl.
  - now rewrite Nat.add_0_r.
  - rewrite IH. now rewrite Nat.add_succ_r.
Qed.

Lemma sum_upto_ext (f g : nat -> F) (n : nat) :
  (forall j, (j < n)%nat -> f j = g j) -> Spec.sum_upto f n = Spec.sum_upto g n.
Proof.
  induction n as [|n IH]; intros Hfg; simpl.
  - reflexivity.
  - rewrite IH by (intros j Hj; apply Hfg; lia).
    now rewrite Hfg by lia.
Qed.

(** A left-to-right accumulation over the positions of a list is the
    indexed sum. *)
Lemma fold_enumerate_sum {A : Type} (g : nat -> A -> F) (d : A) (l : list A) :
  fold_left (fun value jx => fadd value (g (fst jx) (snd jx))) (enumerate l) (of_int 0)
  = Spec.sum_upto (fun j => g j (nth j l d)) (List.length l).
Proof.
  unfold enumerate.
  induction l as [|x l IH] using rev_ind.
  - reflexivity.
  - rewrite enumerate_from_snoc, fold_left_app, IH.
    replace (List.length (l ++ [x])) with (S (List.length l))
      by (rewrite length_app; simpl; lia).
    simpl. f_equal.
    + apply sum_upto_ext. intros j Hj. now rewrite app_nth1.
    + now rewrite nth_middle.
Qed.

Lemma fold_left_same {A B : Type} (f g : A -> B -> A) (l : list B) (a : A) :
  (forall a x, f a x = g a x) -> fold_left f l a = fold_left g l a.
Proof.
  intros Hfg. revert a. induction l as [|x l IH]; intros a; simpl.
  - reflexivity.
  - now rewrite Hfg, IH.
Qed.

Lemma add_token_contribution (i : Z) (value : F) (jt : nat * str) :
  add_token rt i value jt = fadd value (Spec.contribution rt (snd jt) i (fst jt)).
Proof. destruct jt as [j token]. reflexivity. Qed.

Lemma component_spec (tokens : list str) (i : Z) :
  component rt tokens i = Spec.raw_component rt tokens i.
Proof.
  unfold component, Spec.raw_component. f_equal.
  rewrite <- (fold_enumerate_sum (fun j token => Spec.contribution rt token i j)).
  apply fold_left_same. intros value jt. apply add_token_contribution.
Qed.

Lemma py_sum_map {A : Type} (g : A -> F) (d : A) (l : list A) :
  py_sum (map g l) = Spec.sum_upto (fun k => g (nth k l d)) (List.length l).
Proof.
  unfold py_sum.
  induction l as [|x l IH] using rev_ind.
  - reflexivity.
  - rewrite map_app, fold_left_app, IH.
    replace (List.length (l ++ [x])) with (S (List.length l))
      by (rewrite length_app; simpl; lia).
    simpl. f_equal.
    + apply sum_upto_ext. intros j Hj. now rewrite app_nth1.
    + now rewrite nth_middle.
Qed.

Lemma norm_spec (v : list F) : norm v = Spec.euclidean_norm v.
Proof. unfold norm, Spec.euclidean_norm. now rewrite (py_sum_map _ (of_int 0)). Qed.

Lemma range_length (n : Z) : List.length (range n) = Z.to_nat n.
Proof. unfold range. now rewrite length_map, length_seq. Qed.

Lemma range_nth (n i : Z) : 0 <= i < n -> nth (Z.to_nat i) (range n) 0 = i.
Proof.
  intros Hi. unfold range.
  rewrite (nth_indep _ 0 (Z.of_nat 0)) by (rewrite length_map, length_seq; lia).
  rewrite map_nth, seq_nth by lia. lia.
Qed.

Lemma raw_embedding_length (tokens : list str) :
  List.length (raw_embedding rt tokens) = 768%nat.
Proof. unfold raw_embedding. now rewrite length_map, range_length. Qed.

Lemma normalize_length (v : list F) : List.length (normalize v) = List.length v.
Proof. unfold normalize. destruct (flt _ _); [apply length_map | reflexivity]. Qed.

Lemma create_embedding_length (text : str) :
  List.length (create_embedding rt text) = 768%nat.
Proof. unfold create_embedding. now rewrite normalize_length, raw_embedding_length. Qed.

(** Claim C3.  For every token sequence the vector built by the loops of
    [create_embedding] has, at each dimension [i] of [0, 768), the component
    (sum over the positions [j] of [(hash(token_j ++ str(i)) mod 1000) /
    1000.0 * 1/(j+1)]) / max(len(tokens), 1), the terms being added in the
    order of the tokens; the vector returned is this one divided
    componentwise by its Euclidean norm when the norm is > 0 and this one
    unchanged otherwise.  This holds in every arithmetic, binary64
    included. *)
Theorem create_embedding_formula (text : str) (tokens : list str) :
  raw_embedding rt tokens = map (Spec.raw_component rt tokens) (range dimension)
  /\ (forall i, 0 <= i < 768 ->
      nth (Z.to_nat i) (raw_embedding rt tokens) (of_int 0) = Spec.raw_component rt tokens i)
  /\ normalize (raw_embedding rt tokens) = Spec.synthesize rt tokens
  /\ create_embedding rt text = Spec.synthesize rt (tokenize rt text).
Proof.
  assert (Hraw : raw_embedding rt tokens = map (Spec.raw_component rt tokens) (range dimension)).
  { unfold raw_embedding. apply map_ext. intros i. apply component_spec. }
  assert (Hsyn : forall toks, normalize (raw_embedding rt toks) = Spec.synthesize rt toks).
  { intros toks. unfold normalize, Spec.synthesize. rewrite norm_spec.
    replace (raw_embedding rt toks) with (map (Spec.raw_component rt toks) (range dimension)).
    - reflexivity.
    - unfold raw_embedding. apply map_ext. intros i. symmetry. apply component_spec. }
  repeat split.
  - exact Hraw.
  - intros i Hi. rewrite Hraw.
    rewrite (nth_indep _ (of_int 0) (Spec.raw_component rt tokens 0))
      by (rewrite length_map, range_length; unfold dimension; lia).
    rewrite map_nth. now rewrite range_nth.
  - apply Hsyn.
  - unfold create_embedding. apply Hsyn.
Qed.

End VectorFacts.

Lemma create_embedding_formula_witness :
  let rt := cpython (secret_of_seed 0) in
  let tokens := [lit "hello"; lit "world"] in
  0 <= 5 < 768
  /\ nth (Z.to_nat 5) (raw_embedding (F:=PrimFloat.float) rt tokens) (of_int 0)
     = Spec.raw_component rt tokens 5.
Proof.
  cbv zeta.
  assert (Hi : 0 <= 5 < 768) by lia.
  split; [exact Hi|].
  destruct (create_embedding_formula (F:=PrimFloat.float) (cpython (secret_of_seed 0))
              (lit "Hello World") [lit "hello"; lit "world"]) as (_ & Hnth & _).
  exact (Hnth 5 Hi).
Defined.

(** ** The comparisons of the two arithmetics *)

Module FloatOrder.

Import Floats.

Lemma SFcompare_Lt_Gt (x y : spec_float) :
  SFcompare x y = Some Lt -> SFcompare y x = Some Gt.
Proof.
  destruct x as [sx|sx| |sx mx ex], y as [sy|sy| |sy my ey]; simpl;
    try destruct sx; try destruct sy; try discriminate; try reflexivity.
  - rewrite (Z.compare_antisym ex ey).
    destruct (ex ?= ey); simpl; try discriminate; try reflexivity.
    change (Pos.compare_cont Eq my mx) with (Pos.compare my mx).
    change (Pos.compare_cont Eq mx my) with (Pos.compare mx my).
    rewrite (Pos.compare_antisym mx my).
    destruct (mx ?= my)%positive; simpl; try discriminate; reflexivity.
  - rewrite (Z.compare_antisym ex ey).
    destruct (ex ?= ey); simpl; try discriminate; try reflexivity.
    change (Pos.compare_cont Eq my mx) with (Pos.compare my mx).
    change (Pos.compare_cont Eq mx my) with (Pos.compare mx my).
    rewrite (Pos.compare_antisym mx my).
    destruct (mx ?= my)%positive; simpl; try discriminate; reflexivity.
Qed.

Lemma float_ltb_Lt (x y : float) :
  PrimFloat.ltb x y = true <-> SFcompare (Prim2SF x) (Prim2SF y) = Some Lt.
Proof.
  rewrite ltb_spec. unfold SFltb.
  destruct (SFcompare (Prim2SF x) (Prim2SF y)) as [[]|]; split; congruence.
Qed.

Lemma SFcompare_below_zero (x : spec_float) (m : positive) (e : Z) :
  SFcompare x (S754_zero false) = Some Lt ->
  SFcompare x (S754_finite false m e) = Some Lt.
Proof.
  destruct x as [sx|sx| |sx mx ex]; try destruct sx; simpl; try discriminate; reflexivity.
Qed.

Lemma Prim2SF_0 : Prim2SF (float_of_int 0) = S754_zero false.
Proof. vm_compute. reflexivity. Qed.

Lemma Prim2SF_1 : Prim2SF (float_of_int 1) = S754_finite false 4503599627370496 (-52).
Proof. vm_compute. reflexivity. Qed.

Lemma float_flt_fle (x y : float) : PrimFloat.ltb x y = true -> PrimFloat.leb x y = true.
Proof.
  intros Hlt. apply float_ltb_Lt in Hlt.
  rewrite leb_spec. unfold SFleb. now rewrite Hlt.
Qed.

Lemma float_flt_asym (x y : float) : PrimFloat.ltb x y = true -> PrimFloat.ltb y x = false.
Proof.
  intros Hlt. apply float_ltb_Lt in Hlt. apply SFcompare_Lt_Gt in Hlt.
  rewrite ltb_spec. unfold SFltb. now rewrite Hlt.
Qed.

Lemma float_flt_below_0 (x : float) :
  PrimFloat.ltb x (float_of_int 0) = true -> PrimFloat.ltb x (float_of_int 1) = true.
Proof.
  intros Hlt. apply float_ltb_Lt in Hlt. apply float_ltb_Lt.
  rewrite Prim2SF_0 in Hlt. rewrite Prim2SF_1.
  now apply SFcompare_below_zero.
Qed.

Lemma SFcompare_antisym (x y : spec_float) :
  SFcompare y x = option_map CompOpp (SFcompare x y).
Proof.
  destruct x as [sx|sx| |sx mx ex], y as [sy|sy| |sy my ey]; simpl;
    try destruct sx; try destruct sy; try reflexivity.
  - rewrite (Z.compare_antisym ex ey).
    destruct (ex ?= ey); simpl; try reflexivity.
    change (Pos.compare_cont Eq my mx) with (Pos.compare my mx).
    change (Pos.compare_cont Eq mx my) with (Pos.compare mx my).
    rewrite (Pos.compare_antisym mx my).
    destruct (mx ?= my)%positive; reflexivity.
  - rewrite (Z.compare_antisym ex ey).
    destruct (ex ?= ey); simpl; try reflexivity.
    change (Pos.compare_cont Eq my mx) with (Pos.compare my mx).
    change (Pos.compare_cont Eq mx my) with (Pos.compare mx my).
    rewrite (Pos.compare_antisym mx my).
    destruct (mx ?= my)%positive; reflexivity.
Qed.

(** Two numbers are comparable: only a NaN is unordered. *)
Lemma SFcompare_numbers (x y : spec_float) :
  SFeqb x x = true -> SFeqb y y = true -> SFcompare x y <> None.
Proof.
  destruct x as [sx|sx| |sx mx ex], y as [sy|sy| |sy my ey]; simpl;
    try discriminate; intros _ _; discriminate.
Qed.

Lemma float_flt_total (x y : float) :
  PrimFloat.eqb x x = true -> PrimFloat.eqb y y = true ->
  PrimFloat.ltb x y = false -> PrimFloat.ltb y x = false -> PrimFloat.eqb y x = true.
Proof.
  rewrite !eqb_spec, !ltb_spec. intros Hx Hy.
  pose proof (SFcompare_numbers _ _ Hx Hy) as Hsome.
  unfold SFeqb, SFltb. rewrite (SFcompare_antisym (Prim2SF x) (Prim2SF y)).
  destruct (SFcompare (Prim2SF x) (Prim2SF y)) as [[]|]; simpl;
    try discriminate; try reflexivity.
  now contradiction Hsome.
Qed.

Lemma laws : OrderLaws PrimFloat.float.
Proof.
  split.
  - exact float_flt_fle.
  - exact float_flt_asym.
  - exact float_flt_below_0.
  - vm_compute. reflexivity.
  - vm_compute. reflexivity.
  - vm_compute. reflexivity.
  - vm_compute. reflexivity.
  - vm_compute. reflexivity.
  - vm_compute. reflexivity.
  - exact float_flt_total.
Qed.

End FloatOrder.

#[export] Instance float_order : OrderLaws PrimFloat.float := FloatOrder.laws.

Lemma Rltb_true (x y : R) : Rltb x y = true <-> (x < y)%R.
Proof. unfold Rltb. destruct (Rlt_dec x y); split; intros; try discriminate; tauto. Qed.

Lemma Rltb_false (x y : R) : Rltb x y = false <-> (y <= x)%R.
Proof.
  unfold Rltb. destruct (Rlt_dec x y); split; intros; try discriminate; try lra; reflexivity.
Qed.

Lemma Rleb_true (x y : R) : Rleb x y = true <-> (x <= y)%R.
Proof. unfold Rleb. destruct (Rle_dec x y); split; intros; try discriminate; tauto. Qed.

Lemma Reqb_true (x y : R) : Reqb x y = true <-> x = y.
Proof. unfold Reqb. destruct (Req_dec_T x y); split; intros; try discriminate; tauto. Qed.

#[export] Instance real_order : OrderLaws R.
Proof.
  split.
  - intros x y Hlt. apply Rltb_true in Hlt. apply Rleb_true. lra.
  - intros x y Hlt. apply Rltb_true in Hlt. apply Rltb_false. lra.
  - intros x Hlt. apply Rltb_true in Hlt. apply Rltb_true. simpl in *. lra.
  - apply Rleb_true. simpl. lra.
  - apply Rleb_true. simpl. lra.
  - apply Rleb_true. simpl. lra.
  - apply Rltb_true. simpl. lra.
  - now apply Reqb_true.
  - now apply Reqb_true.
  - intros x y _ _ Hxy Hyx. apply Rltb_false in Hxy, Hyx. apply Reqb_true.
    now apply Rle_antisym.
Qed.

(** ** The vectors over the real numbers *)

Section RealFacts.

Variable rt : Runtime.

Open Scope R_scope.

Lemma contribution_nonneg (token : str) (i : Z) (j : nat) :
  0 <= Spec.contribution (F:=R) rt token i j.
Proof.
  unfold Spec.contribution. simpl.
  assert (Hh : (0 <= str_hash rt (token ++ str_of_int i) mod 1000)%Z)
    by (apply Z.mod_pos_bound; lia).
  apply IZR_le in Hh.
  assert (Hj : 0 < IZR (Z.of_nat j + 1)) by (apply IZR_lt; lia).
  apply Rmult_le_pos.
  - apply Rmult_le_pos; [exact Hh|]. apply Rlt_le, Rinv_0_lt_compat. lra.
  - apply Rmult_le_pos; [lra|]. apply Rlt_le, Rinv_0_lt_compat. exact Hj.
Qed.

Lemma contribution_pos (token : str) (i : Z) (j : nat) :
  (str_hash rt (token ++ str_of_int i) mod 1000 <> 0)%Z ->
  0 < Spec.contribution (F:=R) rt token i j.
Proof.
  intros Hne. unfold Spec.contribution. simpl.
  assert (Hh : (0 < str_hash rt (token ++ str_of_int i) mod 1000)%Z).
  { pose proof (Z.mod_pos_bound (str_hash rt (token ++ str_of_int i)) 1000). lia. }
  apply IZR_lt in Hh.
  assert (Hj : 0 < IZR (Z.of_nat j + 1)) by (apply IZR_lt; lia).
  apply Rmult_lt_0_compat.
  - apply Rmult_lt_0_compat; [exact Hh|]. apply Rinv_0_lt_compat. lra.
  - apply Rmult_lt_0_compat; [lra|]. apply Rinv_0_lt_compat. exact Hj.
Qed.

Lemma contribution_zero (token : str) (i : Z) (j : nat) :
  (str_hash rt (token ++ str_of_int i) mod 1000 = 0)%Z ->
  Spec.contribution (F:=R) rt token i j = 0.
Proof.
  intros Hz. unfold Spec.contribution. simpl. rewrite Hz. unfold Rdiv. ring.
Qed.

Lemma sum_upto_nonneg (f : nat -> R) (n : nat) :
  (forall j, (j < n)%nat -> 0 <= f j) -> 0 <= Spec.sum_upto f n.
Proof.
  induction n as [|n IH]; intros Hf; simpl.
  - lra.
  - assert (0 <= Spec.sum_upto f n) by (apply IH; intros; apply Hf; lia).
    assert (0 <= f n) by (apply Hf; lia). lra.
Qed.

Lemma sum_upto_pos (f : nat -> R) (n j : nat) :
  (forall k, (k < n)%nat -> 0 <= f k) -> (j < n)%nat -> 0 < f j -> 0 < Spec.sum_upto f n.
Proof.
  induction n as [|n IH]; intros Hf Hj Hpos; simpl.
  - lia.
  - assert (Hn : 0 <= f n) by (apply Hf; lia).
    assert (Hs : 0 <= Spec.sum_upto f n) by (apply sum_upto_nonneg; intros; apply Hf; lia).
    destruct (Nat.eq_dec j n) as [->|Hne].
    + lra.
    + assert (0 < Spec.sum_upto f n) by (apply IH; auto; lia). lra.
Qed.

Lemma sum_upto_zero (f : nat -> R) (n : nat) :
  (forall j, (j < n)%nat -> f j = 0) -> Spec.sum_upto f n = 0.
Proof.
  induction n as [|n IH]; intros Hf; simpl.
  - reflexivity.
  - rewrite IH by (intros; apply Hf; lia). rewrite Hf by lia. lra.
Qed.

Lemma len_divisor_pos (tokens : list str) : 0 < IZR (Z.max (len tokens) 1).
Proof. apply IZR_lt. lia. Qed.

Lemma component_nonneg (tokens : list str) (i : Z) : 0 <= component (F:=R) rt tokens i.
Proof.
  rewrite component_spec. unfold Spec.raw_component. simpl.
  apply Rmult_le_pos.
  - apply sum_upto_nonneg. intros j _. apply contribution_nonneg.
  - apply Rlt_le, Rinv_0_lt_compat, len_divisor_pos.
Qed.

Lemma component_pos (tokens : list str) (token : str) (i : Z) :
  In token tokens -> (str_hash rt (token ++ str_of_int i) mod 1000 <> 0)%Z ->
  0 < component (F:=R) rt tokens i.
Proof.
  intros Hin Hne. rewrite component_spec. unfold Spec.raw_component. simpl.
  apply Rmult_lt_0_compat.
  - destruct (In_nth _ _ [] Hin) as [j [Hj Hnth]].
    apply (sum_upto_pos _ _ j).
    + intros k _. apply contribution_nonneg.
    + exact Hj.
    + subst token. exact (contribution_pos _ i j Hne).
  - apply Rinv_0_lt_compat, len_divisor_pos.
Qed.

Lemma component_zero (tokens : list str) (i : Z) :
  (forall token, In token tokens -> (str_hash rt (token ++ str_of_int i) mod 1000 = 0)%Z) ->
  component (F:=R) rt tokens i = 0.
Proof.
  intros Hz. rewrite component_spec. unfold Spec.raw_component. simpl.
  rewrite sum_upto_zero.
  - unfold Rdiv. ring.
  - intros j Hj. apply contribution_zero. apply Hz. now apply nth_In.
Qed.

(** Sums of squares *)


Lemma fold_plus_shift (l : list R) (a : R) :
  fold_left Rplus l a = a + fold_left Rplus l 0.
Proof.
  revert a. induction l as [|x l IH]; intros a; simpl.
  - lra.
  - rewrite (IH (a + x)), (IH (0 + x)). lra.
Qed.

Lemma sum_sq_cons (x : R) (v : list R) : sum_sq (x :: v) = x * x + sum_sq v.
Proof.
  unfold sum_sq, py_sum. simpl. rewrite fold_plus_shift. lra.
Qed.

Lemma sum_sq_nonneg (v : list R) : 0 <= sum_sq v.
Proof.
  induction v as [|x v IH].
  - unfold sum_sq, py_sum. simpl. lra.
  - rewrite sum_sq_cons. pose proof (Rle_0_sqr x) as Hx. unfold Rsqr in Hx. lra.
Qed.

Lemma sum_sq_pos (v : list R) (x : R) : In x v -> x <> 0 -> 0 < sum_sq v.
Proof.
  induction v as [|y v IH]; intros Hin Hne.
  - destruct Hin.
  - rewrite sum_sq_cons. pose proof (sum_sq_nonneg v) as Hv.
    pose proof (Rle_0_sqr y) as Hy. unfold Rsqr in Hy.
    destruct Hin as [->|Hin].
    + assert (0 < x * x) by (apply Rsqr_pos_lt in Hne; exact Hne). lra.
    + specialize (IH Hin Hne). lra.
Qed.

Lemma sum_sq_zeros (v : list R) : Forall (fun x => x = 0) v -> sum_sq v = 0.
Proof.
  induction 1 as [|x v Hx _ IH].
  - reflexivity.
  - rewrite sum_sq_cons, IH, Hx. lra.
Qed.

Lemma sum_sq_scaled (v : list R) (n : R) :
  n <> 0 -> sum_sq (map (fun x => x / n) v) = sum_sq v / (n * n).
Proof.
  intros Hn. induction v as [|x v IH].
  - unfold sum_sq, py_sum. simpl. unfold Rdiv. ring.
  - simpl map. rewrite !sum_sq_cons, IH. field. exact Hn.
Qed.

Lemma norm_sum_sq (v : list R) : norm (F:=R) v = sqrt (sum_sq v).
Proof. reflexivity. Qed.

Lemma normalize_pos (v : list R) :
  0 < norm (F:=R) v -> normalize v = map (fun x => x / norm v) v.
Proof.
  intros Hn. unfold normalize. cbv zeta.
  destruct (flt (of_int 0) (norm v)) eqn:Hflt.
  - reflexivity.
  - apply (proj1 (Rltb_false 0 (norm v))) in Hflt. lra.
Qed.

Lemma normalize_nonpos (v : list R) : norm (F:=R) v <= 0 -> normalize v = v.
Proof.
  intros Hn. unfold normalize. cbv zeta.
  destruct (flt (of_int 0) (norm v)) eqn:Hflt.
  - apply (proj1 (Rltb_true 0 (norm v))) in Hflt. lra.
  - reflexivity.
Qed.

Lemma normalize_unit (v : list R) :
  0 < sum_sq v -> norm (F:=R) (normalize v) = 1.
Proof.
  intros Hpos.
  assert (Hn : 0 < norm (F:=R) v) by (rewrite norm_sum_sq; now apply sqrt_lt_R0).
  rewrite normalize_pos by exact Hn.
  rewrite norm_sum_sq, sum_sq_scaled by lra.
  rewrite norm_sum_sq, sqrt_sqrt by lra.
  replace (sum_sq v / sum_sq v) with 1 by (field; lra).
  apply sqrt_1.
Qed.

Lemma normalize_zero (v : list R) : sum_sq v = 0 -> normalize (F:=R) v = v.
Proof.
  intros Hz. apply normalize_nonpos. rewrite norm_sum_sq, Hz, sqrt_0. lra.
Qed.

Lemma normalize_nonneg (v : list R) :
  Forall (fun x => 0 <= x) v -> Forall (fun x => 0 <= x) (normalize (F:=R) v).
Proof.
  intros Hv. destruct (Rlt_dec 0 (norm (F:=R) v)) as [Hn|Hn].
  - rewrite normalize_pos by exact Hn. apply Forall_map.
    eapply Forall_impl; [|exact Hv]. intros x Hx. cbv beta.
    apply Rmult_le_pos; [exact Hx|]. now apply Rlt_le, Rinv_0_lt_compat.
  - rewrite normalize_nonpos by lra. exact Hv.
Qed.

Lemma raw_embedding_nonneg (tokens : list str) :
  Forall (fun x => 0 <= x) (raw_embedding (F:=R) rt tokens).
Proof.
  unfold raw_embedding. apply Forall_map, Forall_forall.
  intros i _. apply component_nonneg.
Qed.

Lemma create_embedding_nonneg (text : str) :
  Forall (fun x => 0 <= x) (create_embedding (F:=R) rt text).
Proof. apply normalize_nonneg, raw_embedding_nonneg. Qed.

(** [has_feature] decides whether the raw vector is zero. *)

Lemma any_true {A : Type} (f : A -> bool) (l : list A) :
  any f l = true <-> exists x, In x l /\ f x = true.
Proof.
  induction l as [|y l IH]; simpl.
  - split; [discriminate | intros [x [[] _]]].
  - destruct (f y) eqn:Hy.
    + split; [intros _; exists y; auto | reflexivity].
    + rewrite IH. split; intros [x [Hin Hx]]; exists x.
      * auto.
      * destruct Hin as [->|Hin]; [congruence | auto].
Qed.

Lemma has_feature_true (tokens : list str) :
  has_feature rt tokens = true -> 0 < sum_sq (raw_embedding rt tokens).
Proof.
  unfold has_feature. intros Hf.
  apply any_true in Hf. destruct Hf as [i [Hi Hf]].
  apply any_true in Hf. destruct Hf as [token [Htok Hne]].
  apply negb_true_iff, Z.eqb_neq in Hne.
  apply (sum_sq_pos _ (component rt tokens i)).
  - unfold raw_embedding. now apply in_map.
  - pose proof (component_pos tokens token i Htok Hne). lra.
Qed.

Lemma has_feature_false (tokens : list str) :
  has_feature rt tokens = false -> Forall (fun x => x = 0) (raw_embedding (F:=R) rt tokens).
Proof.
  unfold has_feature. intros Hf.
  unfold raw_embedding. apply Forall_map, Forall_forall. intros i Hi.
  apply component_zero. intros token Htok.
  destruct (str_hash rt (token ++ str_of_int i) mod 1000 =? 0)%Z eqn:Hz.
  - now apply Z.eqb_eq.
  - exfalso. rewrite <- not_true_iff_false in Hf. apply Hf.
    apply any_true. exists i. split; [exact Hi|].
    apply any_true. exists token. split; [exact Htok|]. now rewrite Hz.
Qed.

Lemma has_feature_nil : has_feature rt [] = false.
Proof.
  unfold has_feature. apply not_true_iff_false. intros Hf.
  apply any_true in Hf. destruct Hf as [i [_ Hf]]. discriminate.
Qed.

Lemma create_embedding_unit (text : str) :
  has_feature rt (tokenize rt text) = true -> norm (create_embedding (F:=R) rt text) = 1.
Proof. intros Hf. apply normalize_unit. now apply has_feature_true. Qed.

Lemma create_embedding_zero (text : str) :
  has_feature rt (tokenize rt text) = false ->
  Forall (fun x => x = 0) (create_embedding (F:=R) rt text).
Proof.
  intros Hf. unfold create_embedding.
  pose proof (has_feature_false _ Hf) as Hz.
  rewrite normalize_zero; [exact Hz|]. now apply sum_sq_zeros.
Qed.

End RealFacts.

(** ** The similarity *)

Section SimilarityFacts.

Context {F : Type} `{Arith F}.


Lemma dot_spec (a b : list F) :
  List.length a = List.length b -> dot a b = Spec.dot_product a b.
Proof.
  intros Hlen. unfold dot, Spec.dot_product.
  rewrite (py_sum_map _ (of_int 0, of_int 0)), length_combine, <- Hlen, Nat.min_id.
  apply sum_upto_ext. intros k Hk. now rewrite combine_nth.
Qed.

Lemma clamp_bounds `{!OrderLaws F} (d : F) :
  fle (of_int 0) (py_max (of_int 0) (py_min (of_int 1) d)) = true
  /\ fle (py_max (of_int 0) (py_min (of_int 1) d)) (of_int 1) = true.
Proof.
  unfold py_max, py_min.
  destruct (flt d (of_int 1)) eqn:Hd1.
  - destruct (flt (of_int 0) d) eqn:Hd0.
    + split; now apply flt_fle.
    + split; [apply fle_0_0 | apply fle_0_1].
  - destruct (flt (of_int 0) (of_int 1)).
    + split; [apply fle_0_1 | apply fle_1_1].
    + split; [apply fle_0_0 | apply fle_0_1].
Qed.

Lemma clamp_negative `{!OrderLaws F} (d : F) :
  flt d (of_int 0) = true -> py_max (of_int 0) (py_min (of_int 1) d) = of_int 0.
Proof.
  intros Hneg. unfold py_max, py_min.
  rewrite (flt_below_0 d Hneg). now rewrite (flt_asym _ _ Hneg).
Qed.

Lemma clamp_above `{!OrderLaws F} (d : F) :
  flt (of_int 1) d = true -> py_max (of_int 0) (py_min (of_int 1) d) = of_int 1.
Proof.
  intros Habove. unfold py_max, py_min.
  rewrite (flt_asym _ _ Habove). now rewrite flt_0_1.
Qed.

Lemma clamp_inside (d : F) :
  flt (of_int 0) d = true -> flt d (of_int 1) = true ->
  py_max (of_int 0) (py_min (of_int 1) d) = d.
Proof.
  intros Hlow Hhigh. unfold py_max, py_min. now rewrite Hhigh, Hlow.
Qed.

(** The nested [max] and [min] of the program against the clamp of the
    specification: equal as numbers ([==]) on every number. *)
Lemma clamp_spec `{!OrderLaws F} (d : F) :
  feq d d = true ->
  feq (py_max (of_int 0) (py_min (of_int 1) d)) (Spec.clamp d) = true.
Proof.
  intros Hnumber. unfold Spec.clamp.
  destruct (flt d (of_int 0)) eqn:Hneg.
  - rewrite (clamp_negative d Hneg). apply feq_0_0.
  - destruct (flt (of_int 1) d) eqn:Habove.
    + rewrite (clamp_above d Habove). apply feq_1_1.
    + unfold py_max, py_min.
      destruct (flt d (of_int 1)) eqn:Hhigh.
      * destruct (flt (of_int 0) d) eqn:Hlow; [exact Hnumber|].
        apply flt_total; [exact Hnumber | apply feq_0_0 | exact Hneg | exact Hlow].
      * rewrite flt_0_1.
        apply flt_total; [exact Hnumber | apply feq_1_1 | exact Hhigh | exact Habove].
Qed.


End SimilarityFacts.

(** Over the real numbers the nested [max] and [min] are the library's
    [Rmax] and [Rmin]. *)
Lemma clamp_real (d : R) : py_max (F:=R) (of_int 0) (py_min (of_int 1) d) = Rmax 0 (Rmin 1 d).
Proof.
  unfold py_max, py_min, Rmax, Rmin. simpl.
  destruct (Rle_dec 1 d) as [Hle|Hgt].
  - assert (Hnot : Rltb d 1 = false) by (apply Rltb_false; lra). rewrite Hnot.
    assert (Hlt : Rltb 0 1 = true) by (apply Rltb_true; lra). rewrite Hlt.
    destruct (Rle_dec 0 1); [reflexivity | lra].
  - assert (Hlt : Rltb d 1 = true) by (apply Rltb_true; lra). rewrite Hlt.
    destruct (Rle_dec 0 d) as [Hpos|Hneg].
    + destruct (Rltb 0 d) eqn:Hd; [reflexivity|]. apply Rltb_false in Hd. lra.
    + assert (Hd : Rltb 0 d = false) by (apply Rltb_false; lra). now rewrite Hd.
Qed.

(** Claim C7.  [calculate_similarity] returns the dot product of the two
    embedding vectors clamped to [0.0, 1.0].  With [d] the dot product (the
    sum of the products of the components, as the specification writes it)
    the value returned is [max(0.0, min(1.0, d))]; it is >= 0.0 and <= 1.0;
    it is [d] itself when [0.0 < d < 1.0], it is 1.0 when [d > 1.0], and
    whenever [d] is a number it equals ([==]) the clamp of the
    specification, which is 0 below 0, 1 above 1 and [d] in between.  The
    nested [max] and [min] behave so on every value, not only on dot
    products: a negative value is floored to 0.0, a value above 1.0 gives
    1.0, a value between them is returned unchanged.  This holds in every
    arithmetic whose comparisons satisfy [OrderLaws], binary64 and the real
    numbers among them; over the real numbers the nested [max] and [min]
    are [Rmax 0 (Rmin 1 d)]. *)
Theorem calculate_similarity_clamped {F : Type} `{OrderLaws F} (rt : Runtime) (text1 text2 : str) :
  let emb1 := create_embedding rt text1 in
  let emb2 := create_embedding rt text2 in
  let d := Spec.dot_product emb1 emb2 in
  let similarity := calculate_similarity rt text1 text2 in
  similarity = py_max (of_int 0) (py_min (of_int 1) d)
  /\ fle (of_int 0) similarity = true
  /\ fle similarity (of_int 1) = true
  /\ (flt (of_int 0) d = true -> flt d (of_int 1) = true -> similarity = d)
  /\ (flt (of_int 1) d = true -> similarity = of_int 1)
  /\ (feq d d = true -> feq similarity (Spec.clamp d) = true)
  /\ (forall x : F, flt x (of_int 0) = true ->
      py_max (of_int 0) (py_min (of_int 1) x) = of_int 0)
  /\ (forall x : F, flt (of_int 1) x = true ->
      py_max (of_int 0) (py_min (of_int 1) x) = of_int 1)
  /\ (forall x : F, flt (of_int 0) x = true -> flt x (of_int 1) = true ->
      py_max (of_int 0) (py_min (of_int 1) x) = x)
  /\ (forall x : F, feq x x = true ->
      feq (py_max (of_int 0) (py_min (of_int 1) x)) (Spec.clamp x) = true)
  /\ (forall x : R, py_max (F:=R) (of_int 0) (py_min (of_int 1) x) = Rmax 0 (Rmin 1 x)).
Proof.
  cbv zeta.
  assert (Hdot : dot (create_embedding rt text1) (create_embedding rt text2)
                 = Spec.dot_product (create_embedding rt text1) (create_embedding rt text2)).
  { apply dot_spec. now rewrite !create_embedding_length. }
  unfold calculate_similarity. rewrite Hdot.
  split; [reflexivity|].
  split; [apply clamp_bounds|].
  split; [apply clamp_bounds|].
  split; [apply clamp_inside|].
  split; [apply clamp_above|].
  split; [apply clamp_spec|].
  split; [intros x; apply clamp_negative|].
  split; [intros x; apply clamp_above|].
  split; [intros x; apply clamp_inside|].
  split; [intros x; apply clamp_spec|].
  exact clamp_real.
Qed.

Lemma calculate_similarity_clamped_witness :
  let rt := cpython (secret_of_seed 0) in
  let hello := create_embedding (F:=PrimFloat.float) rt (lit "hello") in
  let world := create_embedding (F:=PrimFloat.float) rt (lit "world") in
  (flt (of_int 0) (Spec.dot_product hello world) = true
   /\ flt (Spec.dot_product hello world) (of_int 1) = true
   /\ calculate_similarity rt (lit "hello") (lit "world") = Spec.dot_product hello world)
  /\ (flt (of_int 1) (Spec.dot_product world world) = true
      /\ calculate_similarity (F:=PrimFloat.float) rt (lit "world") (lit "world") = of_int 1)
  /\ (flt (F:=PrimFloat.float) (of_int (-1)) (of_int 0) = true
      /\ py_max (F:=PrimFloat.float) (of_int 0) (py_min (of_int 1) (of_int (-1))) = of_int 0)
  /\ (flt (F:=PrimFloat.float) (of_int 1) (of_int 2) = true
      /\ py_max (F:=PrimFloat.float) (of_int 0) (py_min (of_int 1) (of_int 2)) = of_int 1)
  /\ (flt (F:=PrimFloat.float) (of_int 0) (fdiv (of_int 1) (of_int 2)) = true
      /\ flt (F:=PrimFloat.float) (fdiv (of_int 1) (of_int 2)) (of_int 1) = true
      /\ py_max (F:=PrimFloat.float) (of_int 0) (py_min (of_int 1) (fdiv (of_int 1) (of_int 2)))
         = fdiv (of_int 1) (of_int 2))
  /\ (feq (F:=PrimFloat.float) (of_int 2) (of_int 2) = true
      /\ feq (F:=PrimFloat.float) (py_max (of_int 0) (py_min (of_int 1) (of_int 2)))
             (Spec.clamp (of_int 2)) = true).
Proof.
  cbv zeta.
  destruct (calculate_similarity_clamped (F:=PrimFloat.float) (cpython (secret_of_seed 0))
              (lit "hello") (lit "world"))
    as (_ & _ & _ & Hinside & _ & _ & Hfloor & Hceil & Hkeep & Hclamp & _).
  destruct (calculate_similarity_clamped (F:=PrimFloat.float) (cpython (secret_of_seed 0))
              (lit "world") (lit "world"))
    as (_ & _ & _ & _ & Habove & _).
  assert (Hlow : flt (F:=PrimFloat.float) (of_int 0)
                   (Spec.dot_product
                      (create_embedding (cpython (secret_of_seed 0)) (lit "hello"))
                      (create_embedding (cpython (secret_of_seed 0)) (lit "world"))) = true)
    by (vm_compute; reflexivity).
  assert (Hhigh : flt (F:=PrimFloat.float)
                    (Spec.dot_product
                       (create_embedding (cpython (secret_of_seed 0)) (lit "hello"))
                       (create_embedding (cpython (secret_of_seed 0)) (lit "world")))
                    (of_int 1) = true)
    by (vm_compute; reflexivity).
  assert (Hover : flt (F:=PrimFloat.float) (of_int 1)
                    (Spec.dot_product
                       (create_embedding (cpython (secret_of_seed 0)) (lit "world"))
                       (create_embedding (cpython (secret_of_seed 0)) (lit "world"))) = true)
    by (vm_compute; reflexivity).
  assert (Hneg : flt (F:=PrimFloat.float) (of_int (-1)) (of_int 0) = true)
    by (vm_compute; reflexivity).
  assert (Htwo : flt (F:=PrimFloat.float) (of_int 1) (of_int 2) = true)
    by (vm_compute; reflexivity).
  assert (Hnumber : feq (F:=PrimFloat.float) (of_int 2) (of_int 2) = true)
    by (vm_compute; reflexivity).
  assert (Hhalf0 : flt (F:=PrimFloat.float) (of_int 0) (fdiv (of_int 1) (of_int 2)) = true)
    by (vm_compute; reflexivity).
  assert (Hhalf1 : flt (F:=PrimFloat.float) (fdiv (of_int 1) (of_int 2)) (of_int 1) = true)
    by (vm_compute; reflexivity).
  split; [split; [exact Hlow | split; [exact Hhigh | exact (Hinside Hlow Hhigh)]]|].
  split; [split; [exact Hover | exact (Habove Hover)]|].
  split; [split; [exact Hneg | exact (Hfloor (of_int (-1)) Hneg)]|].
  split; [split; [exact Htwo | exact (Hceil (of_int 2) Htwo)]|].
  split; [split; [exact Hhalf0 | split; [exact Hhalf1 | exact (Hkeep _ Hhalf0 Hhalf1)]]|].
  split; [exact Hnumber | exact (Hclamp (of_int 2) Hnumber)].
Defined.

Section RealSimilarity.

Variable rt : Runtime.

Open Scope R_scope.


Lemma py_sum_nil : py_sum (F:=R) [] = 0.
Proof. reflexivity. Qed.

Lemma py_sum_cons (x : R) (l : list R) : py_sum (x :: l) = x + py_sum l.
Proof.
  unfold py_sum. simpl. rewrite fold_plus_shift.
  change (of_int (F:=R) 0) with 0. lra.
Qed.

Lemma py_sum_nonneg (l : list R) : Forall (fun x => 0 <= x) l -> 0 <= py_sum l.
Proof.
  induction 1 as [|x l Hx _ IH].
  - rewrite py_sum_nil. lra.
  - rewrite py_sum_cons. lra.
Qed.

Lemma products_nonneg (a b : list R) :
  Forall (fun x => 0 <= x) a -> Forall (fun x => 0 <= x) b ->
  Forall (fun x => 0 <= x) (map (fun '(x, y) => x * y) (combine a b)).
Proof.
  intros Ha. revert b.
  induction Ha as [|x a Hx _ IH]; intros b Hb; simpl.
  - constructor.
  - destruct Hb as [|y b Hy Hb]; simpl; constructor.
    + now apply Rmult_le_pos.
    + now apply IH.
Qed.

Lemma dot_nonneg (a b : list R) :
  Forall (fun x => 0 <= x) a -> Forall (fun x => 0 <= x) b -> 0 <= dot a b.
Proof. intros Ha Hb. unfold dot. now apply py_sum_nonneg, products_nonneg. Qed.

Lemma dot_zeros (a b : list R) : Forall (fun x => x = 0) a -> dot a b = 0.
Proof.
  intros Ha. unfold dot. revert b.
  induction Ha as [|x a Hx _ IH]; intros b.
  - reflexivity.
  - destruct b as [|y b]; [reflexivity|].
    simpl. rewrite py_sum_cons, IH, Hx. lra.
Qed.

Lemma py_max_0_nonneg (m : R) : 0 <= m -> py_max (F:=R) 0 m = m.
Proof.
  intros Hm. unfold py_max. simpl flt.
  destruct (Rltb 0 m) eqn:Hlt; [reflexivity|].
  apply Rltb_false in Hlt. lra.
Qed.






End RealSimilarity.

(** ** The handlers *)

Section HandlerFacts.

Context {F : Type} `{Arith F}.

Variable rt : Runtime.

Lemma str_eqb_eq (a b : str) : str_eqb a b = true <-> a = b.
Proof.
  revert b. induction a as [|x a IH]; intros [|y b]; simpl; try (split; congruence).
  rewrite andb_true_iff, Z.eqb_eq, IH. split.
  - intros [-> ->]. reflexivity.
  - intros Heq. injection Heq. auto.
Qed.

Lemma get_dict (entries : list (str * json F)) (key : str) (default : json F) :
  get (JDict entries) key default = Ok (entry_or entries key default).
Proof. unfold get, entry_or. destruct (lookup key entries); reflexivity. Qed.

Lemma lookup_without (key removed : str) (entries : list (str * json F)) :
  key <> removed -> lookup key (without removed entries) = lookup key entries.
Proof.
  intros Hne. induction entries as [|[k v] entries IH]; simpl.
  - reflexivity.
  - destruct (str_eqb k removed) eqn:Hk; simpl.
    + apply str_eqb_eq in Hk. subst k.
      destruct (str_eqb removed key) eqn:Hr; [|exact IH].
      apply str_eqb_eq in Hr. congruence.
    + now rewrite IH.
Qed.

Lemma for_each_strings (strings : list str) :
  for_each (create_embedding_of rt) (map JStr strings)
  = Ok (map (create_embedding (F:=F) rt) strings).
Proof.
  induction strings as [|s strings IH]; simpl.
  - reflexivity.
  - now rewrite IH.
Qed.

(** What the handler does with the value of [texts]. *)
Lemma handle_embed_request_texts (entries : list (str * json F)) (start_time end_time : F) :
  handle_embed_request rt (Ok (JDict entries)) start_time end_time
  = let texts := entry_or entries (lit "texts") (JList []) in
    if negb (truthy texts)
    then {| status_code := 400;
            data := JDict [(lit "error", JStr (lit "No texts provided"))] |}
    else match bind (iter texts) (for_each (create_embedding_of rt)) with
         | Ok embeddings =>
             {| status_code := 200;
                data := JDict [(lit "embeddings", JList (map (fun e => JList (map JFloat e)) embeddings));
                               (lit "model_name", JStr model_name);
                               (lit "dimension", JInt dimension);
                               (lit "processing_time", JFloat (fsub end_time start_time))] |}
         | Raise e => {| status_code := 500; data := JDict [(lit "error", JStr (str_of_exn e))] |}
         end.
Proof.
  unfold handle_embed_request. cbn [bind].
  rewrite !get_dict. cbn [bind]. cbv zeta.
  destruct (negb (truthy (entry_or entries (lit "texts") (JList [])))); [reflexivity|].
  destruct (iter (entry_or entries (lit "texts") (JList []))) as [items|e]; [|reflexivity].
  cbn [bind]. destruct (for_each (create_embedding_of rt) items); reflexivity.
Qed.


Lemma texts_without_normalize (entries : list (str * json F)) :
  entry_or (without (lit "normalize") entries) (lit "texts") (JList [])
  = entry_or entries (lit "texts") (JList []).
Proof.
  unfold entry_or. rewrite lookup_without; [reflexivity|]. discriminate.
Qed.

(** Claim C2, amended.  POST /embed answers with status 400 exactly when
    the value of [texts] (the empty list when the field is absent) is
    empty, and the body is then [{"error": "No texts provided"}].  The
    entries are not trimmed: a non-empty list of strings, also one of empty
    or white-space-only strings, is answered with status 200 and one vector
    per entry, in order. *)
Theorem handle_embed_request_rejects (entries : list (str * json F)) (start_time end_time : F) :
  let texts := entry_or entries (lit "texts") (JList []) in
  let r := handle_embed_request rt (Ok (JDict entries)) start_time end_time in
  (status_code r = 400 <-> truthy texts = false)
  /\ (truthy texts = false ->
      data r = JDict [(lit "error", JStr (lit "No texts provided"))])
  /\ (forall strings : list str,
        texts = JList (map JStr strings) -> strings <> [] ->
        status_code r = 200
        /\ response_field (lit "embeddings") r
           = Some (JList (map (fun s => JList (map JFloat (create_embedding rt s))) strings))).
Proof.
  cbv zeta. rewrite handle_embed_request_texts. cbv zeta.
  destruct (truthy (entry_or entries (lit "texts") (JList []))) eqn:Htruthy; simpl negb; cbv iota.
  - split; [|split].
    + split; [|discriminate].
      destruct (bind _ _); simpl; discriminate.
    + discriminate.
    + intros strings Htexts Hne. rewrite Htexts. simpl iter. cbn [bind].
      rewrite for_each_strings. split; [reflexivity|].
      unfold response_field. simpl. now rewrite map_map.
  - split; [|split].
    + split; reflexivity.
    + reflexivity.
    + intros strings Htexts Hne. rewrite Htexts in Htruthy.
      destruct strings; [congruence | discriminate].
Qed.

(** Claim C8.  For a request whose [text1] and [text2] are strings (an
    absent field counts as the empty string), POST /similarity answers with
    status 400 and a body [{"error": ...}] exactly when one of the two is
    empty; when both are non-empty it answers with status 200 and a body
    holding the similarity and the processing time. *)
Theorem handle_similarity_request_rejects
    (entries : list (str * json F)) (s1 s2 : str) (start_time end_time : F) :
  entry_or entries (lit "text1") (JStr []) = JStr s1 ->
  entry_or entries (lit "text2") (JStr []) = JStr s2 ->
  let r := handle_similarity_request rt (Ok (JDict entries)) start_time end_time in
  (status_code r = 400 <-> s1 = [] \/ s2 = [])
  /\ (s1 = [] \/ s2 = [] ->
      data r = JDict [(lit "error", JStr (lit "Both text1 and text2 are required"))])
  /\ (s1 <> [] -> s2 <> [] ->
      r = {| status_code := 200;
             data := JDict [(lit "similarity", JFloat (calculate_similarity rt s1 s2));
                            (lit "processing_time", JFloat (fsub end_time start_time))] |}).
Proof.
  intros H1 H2. cbv zeta.
  unfold handle_similarity_request. cbn [bind]. rewrite !get_dict. cbn [bind].
  rewrite H1, H2.
  destruct s1 as [|c1 s1], s2 as [|c2 s2]; simpl.
  - repeat split; auto; intros; congruence.
  - repeat split; auto; intros; congruence.
  - repeat split; auto; intros; congruence.
  - repeat split; try discriminate.
    + intros [Hs|Hs]; discriminate.
    + intros [Hs|Hs]; discriminate.
Qed.

(** Claim C9.  The [normalize] field of a POST /embed request has no
    effect: two requests whose bodies are equal once the [normalize] entry
    is left out (whatever its value, or absent) get the same status, the
    same embeddings, model name and dimension (and the same error, if any);
    with equal clock readings the whole responses are equal. *)
Theorem normalize_field_ignored
    (entries1 entries2 : list (str * json F)) (start1 end1 start2 end2 : F) :
  without (lit "normalize") entries1 = without (lit "normalize") entries2 ->
  let r1 := handle_embed_request rt (Ok (JDict entries1)) start1 end1 in
  let r2 := handle_embed_request rt (Ok (JDict entries2)) start2 end2 in
  status_code r1 = status_code r2
  /\ response_field (lit "embeddings") r1 = response_field (lit "embeddings") r2
  /\ response_field (lit "model_name") r1 = response_field (lit "model_name") r2
  /\ response_field (lit "dimension") r1 = response_field (lit "dimension") r2
  /\ response_field (lit "error") r1 = response_field (lit "error") r2
  /\ (start1 = start2 -> end1 = end2 -> r1 = r2).
Proof.
  intros Hsame. cbv zeta.
  assert (Htexts : entry_or entries1 (lit "texts") (JList [])
                   = entry_or entries2 (lit "texts") (JList [])).
  { rewrite <- (texts_without_normalize entries1), <- (texts_without_normalize entries2).
    now rewrite Hsame. }
  rewrite !handle_embed_request_texts. cbv zeta. rewrite Htexts.
  destruct (negb (truthy (entry_or entries2 (lit "texts") (JList [])))).
  - repeat split; reflexivity.
  - destruct (bind _ _) as [embeddings|e].
    + repeat split; try reflexivity. intros -> ->. reflexivity.
    + repeat split; reflexivity.
Qed.

End HandlerFacts.

(** Claim C2, as stated, fails: the request whose [texts] are a string of
    three spaces and the empty string, in which no text remains once the
    entries are trimmed and the empty ones dropped, is answered with status
    200 and two zero vectors of length 768, not with an error. *)
Lemma embed_blank_texts_accepted :
  let texts := [lit "   "; []] in
  let request := JDict [(lit "texts", JList (map JStr texts))] in
  let r := handle_embed_request (F:=PrimFloat.float) (cpython (secret_of_seed 0))
             (Ok request) (of_int 0) (of_int 0) in
  filter (fun t => negb (str_eqb (str_strip t) [])) texts = []
  /\ status_code r = 200
  /\ status_code r <> 400
  /\ response_field (lit "error") r = None
  /\ response_field (lit "embeddings") r
     = Some (JList [JList (repeat (JFloat (of_int 0)) 768);
                    JList (repeat (JFloat (of_int 0)) 768)]).
Proof.
  cbv zeta.
  split; [reflexivity|].
  split; [vm_compute; reflexivity|].
  split; [vm_compute; discriminate|].
  split; [vm_compute; reflexivity|].
  vm_compute. reflexivity.
Qed.

Lemma handle_embed_request_rejects_witness :
  let rt := cpython (secret_of_seed 0) in
  let strings := [lit "   "; []] in
  let entries := [(lit "texts", JList (map JStr strings))] in
  let r := handle_embed_request (F:=PrimFloat.float) rt (Ok (JDict entries)) (of_int 0) (of_int 0) in
  strings <> []
  /\ status_code r = 200
  /\ truthy (F:=PrimFloat.float) (entry_or [] (lit "texts") (JList [])) = false
  /\ data (handle_embed_request (F:=PrimFloat.float) rt (Ok (JDict [])) (of_int 0) (of_int 0))
     = JDict [(lit "error", JStr (lit "No texts provided"))].
Proof.
  cbv zeta.
  assert (Hne : [lit "   "; []] <> @nil str) by discriminate.
  assert (Hfalse : truthy (F:=PrimFloat.float) (entry_or [] (lit "texts") (JList [])) = false)
    by reflexivity.
  destruct (handle_embed_request_rejects (F:=PrimFloat.float) (cpython (secret_of_seed 0))
              [(lit "texts", JList (map JStr [lit "   "; []]))] (of_int 0) (of_int 0))
    as (_ & _ & Hlist).
  destruct (handle_embed_request_rejects (F:=PrimFloat.float) (cpython (secret_of_seed 0))
              [] (of_int 0) (of_int 0)) as (_ & Herror & _).
  split; [exact Hne|].
  split; [exact (proj1 (Hlist [lit "   "; []] eq_refl Hne))|].
  split; [exact Hfalse|].
  exact (Herror Hfalse).
Defined.

Lemma handle_similarity_request_rejects_witness :
  let rt := cpython (secret_of_seed 0) in
  let annyeong := [0xC548; 0xB155] in
  let entries := [(lit "text1", JStr annyeong); (lit "text2", JStr annyeong)] in
  entry_or (F:=PrimFloat.float) entries (lit "text1") (JStr []) = JStr annyeong
  /\ entry_or (F:=PrimFloat.float) entries (lit "text2") (JStr []) = JStr annyeong
  /\ status_code (handle_similarity_request rt (Ok (JDict entries)) (of_int 0) (of_int 0)) <> 400
  /\ status_code (handle_similarity_request (F:=PrimFloat.float) rt
                    (Ok (JDict [(lit "text2", JStr (lit "hello"))])) (of_int 0) (of_int 0)) = 400.
Proof.
  cbv zeta.
  destruct (handle_similarity_request_rejects (F:=PrimFloat.float) (cpython (secret_of_seed 0))
              [(lit "text1", JStr [0xC548; 0xB155]); (lit "text2", JStr [0xC548; 0xB155])]
              [0xC548; 0xB155] [0xC548; 0xB155] (of_int 0) (of_int 0) eq_refl eq_refl)
    as (Hiff & _ & _).
  destruct (handle_similarity_request_rejects (F:=PrimFloat.float) (cpython (secret_of_seed 0))
              [(lit "text2", JStr (lit "hello"))] [] (lit "hello")
              (of_int 0) (of_int 0) eq_refl eq_refl)
    as (Hiff' & _ & _).
  split; [reflexivity|]. split; [reflexivity|].
  split.
  - intros H400. apply Hiff in H400. destruct H400; discriminate.
  - apply Hiff'. left. reflexivity.
Defined.

Lemma normalize_field_ignored_witness :
  let rt := cpython (secret_of_seed 0) in
  let texts := JList [JStr [0xC548; 0xB155; 0xD558; 0xC138; 0xC694]; JStr (lit "Hello World")] in
  let with_true := [(lit "texts", texts); (lit "normalize", JBool true)] in
  let with_false := [(lit "normalize", JBool false); (lit "texts", texts)] in
  let absent := [(lit "texts", texts)] in
  without (F:=PrimFloat.float) (lit "normalize") with_true = without (lit "normalize") with_false
  /\ without (F:=PrimFloat.float) (lit "normalize") with_true = without (lit "normalize") absent
  /\ response_field (lit "embeddings")
       (handle_embed_request rt (Ok (JDict with_true)) (of_int 0) (of_int 1))
     = response_field (lit "embeddings")
         (handle_embed_request rt (Ok (JDict with_false)) (of_int 2) (of_int 5))
  /\ handle_embed_request rt (Ok (JDict with_true)) (of_int 0) (of_int 1)
     = handle_embed_request rt (Ok (JDict absent)) (of_int 0) (of_int 1).
Proof.
  cbv zeta.
  split; [reflexivity|]. split; [reflexivity|].
  split.
  - apply (normalize_field_ignored (F:=PrimFloat.float)). reflexivity.
  - apply (normalize_field_ignored (F:=PrimFloat.float)); reflexivity.
Defined.


(** ** The claims about the vectors *)

Lemma create_embedding_no_tokens_float (rt : Runtime) (text : str) :
  tokenize rt text = [] ->
  create_embedding (F:=PrimFloat.float) rt text = repeat (of_int 0) 768.
Proof.
  intros Hnone. unfold create_embedding. rewrite Hnone.
  vm_compute. reflexivity.
Qed.

(** A text without a token gets the zero vector: 768 components that
    are exactly 0.0 in binary64 and 0 in exact arithmetic, with norm 0; the
    normalisation leaves it as it is, the norm not being above 0. *)
Theorem zero_vector_without_tokens (rt : Runtime) (text : str) :
  tokenize rt text = [] ->
  create_embedding (F:=PrimFloat.float) rt text = repeat (of_int 0) 768
  /\ norm (create_embedding (F:=PrimFloat.float) rt text) = of_int 0
  /\ Forall (fun x => x = 0%R) (create_embedding (F:=R) rt text)
  /\ norm (create_embedding (F:=R) rt text) = 0%R.
Proof.
  intros Hnone.
  assert (Hzero : Forall (fun x => x = 0%R) (create_embedding (F:=R) rt text)).
  { apply create_embedding_zero. rewrite Hnone. apply has_feature_nil. }
  split; [now apply create_embedding_no_tokens_float|].
  split.
  - rewrite (create_embedding_no_tokens_float rt text Hnone). vm_compute. reflexivity.
  - split; [exact Hzero|].
    rewrite norm_sum_sq, (sum_sq_zeros _ Hzero). apply sqrt_0.
Qed.

Lemma zero_vector_without_tokens_witness :
  let rt := cpython (secret_of_seed 0) in
  tokenize rt (lit "?!") = []
  /\ create_embedding (F:=PrimFloat.float) rt (lit "?!") = repeat (of_int 0) 768
  /\ norm (create_embedding (F:=R) rt (lit "?!")) = 0%R.
Proof.
  cbv zeta.
  assert (Hnone : tokenize (cpython (secret_of_seed 0)) (lit "?!") = [])
    by (vm_compute; reflexivity).
  destruct (zero_vector_without_tokens (cpython (secret_of_seed 0)) (lit "?!") Hnone)
    as (Hfloat & _ & _ & Hnorm).
  split; [exact Hnone|]. split; [exact Hfloat | exact Hnorm].
Defined.

(** In exact arithmetic the Euclidean norm of the vector returned by
    [create_embedding] is 1 or 0: it is 1 when some hashed feature
    [hash(token + str(i)) % 1000] of one of the tokens is not 0, and the
    vector is the zero vector when all of them are 0, which is the case
    when the text has no token. *)
Theorem norm_one_or_zero (rt : Runtime) (text : str) :
  let emb := create_embedding (F:=R) rt text in
  (has_feature rt (tokenize rt text) = true -> norm emb = 1%R)
  /\ (has_feature rt (tokenize rt text) = false ->
      Forall (fun x => x = 0%R) emb /\ norm emb = 0%R)
  /\ (tokenize rt text = [] -> has_feature rt (tokenize rt text) = false)
  /\ (norm emb = 1%R \/ norm emb = 0%R).
Proof.
  cbv zeta.
  assert (Hnone : has_feature rt (tokenize rt text) = false ->
                  Forall (fun x => x = 0%R) (create_embedding (F:=R) rt text)
                  /\ norm (create_embedding (F:=R) rt text) = 0%R).
  { intros Hf. pose proof (create_embedding_zero rt text Hf) as Hzero.
    split; [exact Hzero|].
    rewrite norm_sum_sq, (sum_sq_zeros _ Hzero). apply sqrt_0. }
  split; [apply create_embedding_unit|].
  split; [exact Hnone|].
  split; [intros Hempty; rewrite Hempty; apply has_feature_nil|].
  destruct (has_feature rt (tokenize rt text)) eqn:Hf.
  - left. now apply create_embedding_unit.
  - right. now apply Hnone.
Qed.

Lemma norm_one_or_zero_witness :
  let rt := cpython (secret_of_seed 0) in
  (has_feature rt (tokenize rt (lit "Hello World")) = true
   /\ norm (create_embedding (F:=R) rt (lit "Hello World")) = 1%R)
  /\ (tokenize rt (lit "?!") = []
      /\ has_feature rt (tokenize rt (lit "?!")) = false
      /\ norm (create_embedding (F:=R) rt (lit "?!")) = 0%R).
Proof.
  cbv zeta.
  assert (Hfeat : has_feature (cpython (secret_of_seed 0))
                    (tokenize (cpython (secret_of_seed 0)) (lit "Hello World")) = true)
    by (vm_compute; reflexivity).
  assert (Hnone : tokenize (cpython (secret_of_seed 0)) (lit "?!") = [])
    by (vm_compute; reflexivity).
  destruct (norm_one_or_zero (cpython (secret_of_seed 0)) (lit "Hello World"))
    as (Hunit & _ & _ & _).
  destruct (norm_one_or_zero (cpython (secret_of_seed 0)) (lit "?!"))
    as (_ & Hzero & Hempty & _).
  split; [split; [exact Hfeat | exact (Hunit Hfeat)]|].
  split; [exact Hnone|].
  split; [exact (Hempty Hnone) | exact (proj2 (Hzero (Hempty Hnone)))].
Defined.


(** ** The signs of the binary64 vectors *)

Module FloatSign.

Import Floats.

Definition clear (f : spec_float) : bool :=
  match f with
  | S754_zero s | S754_infinity s | S754_finite s _ _ => negb s
  | S754_nan => true
  end.

Lemma sign_clear_spec (x : float) : sign_clear x = clear (Prim2SF x).
Proof. reflexivity. Qed.

(** Rounding keeps the sign it is given. *)
Lemma binary_round_aux_sign (m e : Z) (l : location) :
  clear (binary_round_aux prec emax false m e l) = true.
Proof.
  unfold binary_round_aux.
  destruct (shr_fexp prec emax m e l) as [mrs e'].
  destruct (shr_fexp prec emax _ e' loc_Exact) as [mrs' e''].
  destruct (shr_m mrs'); [reflexivity| |reflexivity].
  destruct (e'' <=? emax - prec); reflexivity.
Qed.

Lemma binary_normalize_sign (m e : Z) :
  0 <= m -> clear (binary_normalize prec emax m e false) = true.
Proof.
  intros Hm. destruct m as [|p|p]; [reflexivity| |lia].
  unfold binary_normalize, binary_round.
  destruct (shl_align _ _ _) as [mz ez]. apply binary_round_aux_sign.
Qed.

Lemma SFadd_sign (x y : spec_float) :
  clear x = true -> clear y = true -> clear (SFadd prec emax x y) = true.
Proof.
  destruct x as [sx|sx| |sx mx ex], y as [sy|sy| |sy my ey];
    try destruct sx; try destruct sy; try discriminate; intros _ _; try reflexivity.
  unfold SFadd, cond_Zopp. apply binary_normalize_sign. lia.
Qed.

Lemma SFmul_sign (x y : spec_float) :
  clear x = true -> clear y = true -> clear (SFmul prec emax x y) = true.
Proof.
  destruct x as [sx|sx| |sx mx ex], y as [sy|sy| |sy my ey];
    try destruct sx; try destruct sy; try discriminate; intros _ _; try reflexivity.
  apply binary_round_aux_sign.
Qed.

Lemma SFdiv_sign (x y : spec_float) :
  clear x = true -> clear y = true -> clear (SFdiv prec emax x y) = true.
Proof.
  destruct x as [sx|sx| |sx mx ex], y as [sy|sy| |sy my ey];
    try destruct sx; try destruct sy; try discriminate; intros _ _; try reflexivity.
  unfold SFdiv.
  destruct (SFdiv_core_binary prec emax (Z.pos mx) ex (Z.pos my) ey) as [[mz ez] lz].
  apply binary_round_aux_sign.
Qed.

Lemma SFsqrt_sign (x : spec_float) :
  clear x = true -> clear (SFsqrt prec emax x) = true.
Proof.
  destruct x as [sx|sx| |sx mx ex]; try destruct sx; try discriminate; intros _; try reflexivity.
  unfold SFsqrt.
  destruct (SFsqrt_core_binary prec emax (Z.pos mx) ex) as [[mz ez] lz].
  apply binary_round_aux_sign.
Qed.

Lemma of_int_sign (n : Z) : 0 <= n -> sign_clear (float_of_int n) = true.
Proof.
  intros Hn. unfold float_of_int.
  destruct (n <? 0) eqn:Hneg; [apply Z.ltb_lt in Hneg; lia|].
  rewrite sign_clear_spec, of_uint63_spec. apply binary_normalize_sign.
  apply Uint63.to_Z_bounded.
Qed.

Lemma add_sign (x y : float) :
  sign_clear x = true -> sign_clear y = true -> sign_clear (PrimFloat.add x y) = true.
Proof. rewrite !sign_clear_spec, add_spec. apply SFadd_sign. Qed.

Lemma mul_sign (x y : float) :
  sign_clear x = true -> sign_clear y = true -> sign_clear (PrimFloat.mul x y) = true.
Proof. rewrite !sign_clear_spec, mul_spec. apply SFmul_sign. Qed.

Lemma div_sign (x y : float) :
  sign_clear x = true -> sign_clear y = true -> sign_clear (PrimFloat.div x y) = true.
Proof. rewrite !sign_clear_spec, div_spec. apply SFdiv_sign. Qed.

Lemma sqrt_sign (x : float) :
  sign_clear x = true -> sign_clear (PrimFloat.sqrt x) = true.
Proof. rewrite !sign_clear_spec, sqrt_spec. apply SFsqrt_sign. Qed.



Lemma SFcompare_zero_of_sign (x : spec_float) (m : positive) (e : Z) :
  clear x = true ->
  SFcompare x (S754_finite false m e) = Some Lt ->
  SFcompare (S754_zero false) x <> Some Lt ->
  x = S754_zero false.
Proof.
  destruct x as [sx|sx| |sx mx ex]; try destruct sx; simpl; try discriminate;
    try reflexivity; intros _ _ Hzero; now contradiction Hzero.
Qed.

(** A value with a clear sign that is below 1.0 and not above 0.0 is
    +0.0. *)
Lemma zero_of_sign (x : float) :
  sign_clear x = true -> PrimFloat.ltb x (float_of_int 1) = true ->
  PrimFloat.ltb (float_of_int 0) x = false -> x = float_of_int 0.
Proof.
  rewrite sign_clear_spec, !ltb_spec, FloatOrder.Prim2SF_0, FloatOrder.Prim2SF_1.
  unfold SFltb.
  intros Hclear Hlt1 Hlt0. apply Prim2SF_inj. rewrite FloatOrder.Prim2SF_0.
  apply (SFcompare_zero_of_sign _ 4503599627370496 (-52) Hclear).
  - destruct (SFcompare (Prim2SF x) _) as [[]|]; try discriminate; reflexivity.
  - intros Hlt. rewrite Hlt in Hlt0. discriminate.
Qed.

End FloatSign.

Section FloatVectors.

Variable rt : Runtime.


Lemma add_token_sign (i : Z) (value : PrimFloat.float) (jt : nat * str) :
  sign_clear value = true -> sign_clear (add_token rt i value jt) = true.
Proof.
  intros Hvalue. destruct jt as [j token]. unfold add_token.
  apply FloatSign.add_sign; [exact Hvalue|].
  apply FloatSign.mul_sign; apply FloatSign.div_sign; apply FloatSign.of_int_sign; try lia.
  apply Z.mod_pos_bound. lia.
Qed.

Lemma fold_add_token_sign (i : Z) (items : list (nat * str)) (value : PrimFloat.float) :
  sign_clear value = true -> sign_clear (fold_left (add_token rt i) items value) = true.
Proof.
  revert value. induction items as [|jt items IH]; intros value Hvalue; simpl.
  - exact Hvalue.
  - apply IH. now apply add_token_sign.
Qed.

Lemma component_sign (tokens : list str) (i : Z) :
  sign_clear (component rt tokens i) = true.
Proof.
  unfold component. apply FloatSign.div_sign.
  - apply fold_add_token_sign. apply FloatSign.of_int_sign. lia.
  - apply FloatSign.of_int_sign. lia.
Qed.

Lemma fold_fadd_sign (xs : list PrimFloat.float) (acc : PrimFloat.float) :
  sign_clear acc = true -> Forall (fun x => sign_clear x = true) xs ->
  sign_clear (fold_left fadd xs acc) = true.
Proof.
  revert acc. induction xs as [|x xs IH]; intros acc Hacc Hxs; simpl.
  - exact Hacc.
  - inversion Hxs as [|? ? Hx Hrest]; subst.
    apply IH; [|exact Hrest]. now apply FloatSign.add_sign.
Qed.

Lemma py_sum_sign (xs : list PrimFloat.float) :
  Forall (fun x => sign_clear x = true) xs -> sign_clear (py_sum xs) = true.
Proof. intros Hxs. apply fold_fadd_sign; [apply FloatSign.of_int_sign; lia | exact Hxs]. Qed.

Lemma norm_sign (v : list PrimFloat.float) :
  Forall (fun x => sign_clear x = true) v -> sign_clear (norm v) = true.
Proof.
  intros Hv. unfold norm. apply FloatSign.sqrt_sign, py_sum_sign.
  apply Forall_map. eapply Forall_impl; [|exact Hv].
  intros x Hx. now apply FloatSign.mul_sign.
Qed.

Lemma normalize_sign (v : list PrimFloat.float) :
  Forall (fun x => sign_clear x = true) v ->
  Forall (fun x => sign_clear x = true) (normalize v).
Proof.
  intros Hv. unfold normalize.
  destruct (flt (of_int 0) (norm v)); [|exact Hv].
  apply Forall_map. eapply Forall_impl; [|exact Hv].
  intros x Hx. apply FloatSign.div_sign; [exact Hx | now apply norm_sign].
Qed.

Lemma create_embedding_sign (text : str) :
  Forall (fun x => sign_clear x = true) (create_embedding (F:=PrimFloat.float) rt text).
Proof.
  unfold create_embedding. apply normalize_sign.
  unfold raw_embedding. apply Forall_map, Forall_forall.
  intros i _. apply component_sign.
Qed.

Lemma dot_sign (a b : list PrimFloat.float) :
  Forall (fun x => sign_clear x = true) a -> Forall (fun x => sign_clear x = true) b ->
  sign_clear (dot a b) = true.
Proof.
  intros Ha Hb. unfold dot. apply py_sum_sign, Forall_map, Forall_forall.
  intros [x y] Hin.
  apply FloatSign.mul_sign.
  - rewrite Forall_forall in Ha. apply Ha. eapply in_combine_l; exact Hin.
  - rewrite Forall_forall in Hb. apply Hb. eapply in_combine_r; exact Hin.
Qed.

(** [max(0.0, .)] returns what [min(1.0, d)] gives it when the sign of
    [d] is clear. *)
Lemma lower_clamp_sign (d : PrimFloat.float) :
  sign_clear d = true ->
  py_max (of_int 0) (py_min (of_int 1) d) = py_min (of_int 1) d.
Proof.
  intros Hd. unfold py_max, py_min.
  destruct (flt d (of_int 1)) eqn:Hd1.
  - destruct (flt (of_int 0) d) eqn:Hd0; [reflexivity|].
    symmetry. now apply FloatSign.zero_of_sign.
  - vm_compute. reflexivity.
Qed.

Lemma similarity_upper_clamp (text1 text2 : str) :
  calculate_similarity (F:=PrimFloat.float) rt text1 text2
  = py_min (of_int 1) (dot (create_embedding rt text1) (create_embedding rt text2)).
Proof.
  unfold calculate_similarity. cbv zeta.
  apply lower_clamp_sign, dot_sign; apply create_embedding_sign.
Qed.

End FloatVectors.

(** In binary64 the sign bit of every component of every vector returned
    by [create_embedding], of the norm, of every dot product of two such
    vectors and of every similarity is clear: the value is +0.0, a positive
    number, +inf or not a number, never a negative number and never -0.0.
    [calculate_similarity] returns [min(1.0, dot)]: the lower clamp
    [max(0.0, .)] returns the value it is given. *)
Theorem sign_bits_clear (rt : Runtime) (text1 text2 : str) :
  let emb1 := create_embedding (F:=PrimFloat.float) rt text1 in
  let emb2 := create_embedding (F:=PrimFloat.float) rt text2 in
  Forall (fun x => sign_clear x = true) emb1
  /\ sign_clear (norm emb1) = true
  /\ sign_clear (dot emb1 emb2) = true
  /\ calculate_similarity rt text1 text2 = py_min (of_int 1) (dot emb1 emb2)
  /\ sign_clear (calculate_similarity rt text1 text2) = true.
Proof.
  cbv zeta.
  assert (Hsign : sign_clear (dot (create_embedding (F:=PrimFloat.float) rt text1)
                                  (create_embedding rt text2)) = true)
    by (apply dot_sign; apply create_embedding_sign).
  split; [apply create_embedding_sign|].
  split; [apply norm_sign, create_embedding_sign|].
  split; [exact Hsign|].
  split; [apply similarity_upper_clamp|].
  rewrite similarity_upper_clamp. unfold py_min.
  destruct (flt _ _); [exact Hsign | vm_compute; reflexivity].
Qed.










Lemma apart_differ {F : Type} `{Arith F} (tol : F) (v w : list F) :
  apart tol (nth 0 v (of_int 0)) (nth 0 w (of_int 0)) = true ->
  below tol (nth 0 v (of_int 0)) (nth 0 w (of_int 0)) = true /\ v <> w.
Proof.
  unfold apart. intros Hapart.
  apply andb_true_iff in Hapart. destruct Hapart as [Hlt Hirr].
  split; [exact Hlt|].
  intros Heq. subst w. rewrite Hlt in Hirr. discriminate.
Qed.

(** In binary64, under the hash secret of [PYTHONHASHSEED=0], the
    similarity of the text U+C548 U+B155 with itself is within 1e-9 of
    1.0. *)
Example self_similarity_binary64 :
  let rt := cpython (secret_of_seed 0) in
  let similarity := calculate_similarity (F:=PrimFloat.float) rt [0xC548; 0xB155] [0xC548; 0xB155] in
  flt (fsub (of_int 1) similarity) (fdiv (of_int 1) (of_int 1000000000)) = true
  /\ fle similarity (of_int 1) = true.
Proof. vm_compute. split; reflexivity. Qed.

(** Claim C1, the program at the failing input.  Two CPython processes
    whose hash secrets differ (here those of [PYTHONHASHSEED=1] and
    [PYTHONHASHSEED=2]) hash ["hello0"] to different features and return
    different vectors for the text ["hello"]: the first components are
    more than 0.01 apart. *)
Theorem create_embedding_depends_on_hash_secret :
  let process1 := cpython (secret_of_seed 1) in
  let process2 := cpython (secret_of_seed 2) in
  let emb1 := create_embedding (F:=PrimFloat.float) process1 (lit "hello") in
  let emb2 := create_embedding (F:=PrimFloat.float) process2 (lit "hello") in
  str_hash process1 (lit "hello0") mod 1000 = 264
  /\ str_hash process2 (lit "hello0") mod 1000 = 478
  /\ below (fdiv (of_int 1) (of_int 100)) (nth 0 emb1 (of_int 0)) (nth 0 emb2 (of_int 0)) = true
  /\ emb1 <> emb2.
Proof.
  cbv zeta.
  split; [vm_compute; reflexivity|].
  split; [vm_compute; reflexivity|].
  apply apart_differ.
  vm_compute. reflexivity.
Qed.

(** ** More about the normaliser *)

Lemma collapse_runs_space (c : Z) (rest : str) :
  isspace c = true ->
  Spec.collapse_runs (c :: rest)
  = match rest with
    | [] => [space]
    | c' :: _ => if isspace c' then Spec.collapse_runs rest else space :: Spec.collapse_runs rest
    end.
Proof. intros Hc. simpl. now rewrite Hc. Qed.

Lemma collapse_after_space (rest : str) (c : Z) :
  isspace c = true ->
  Spec.collapse_runs (c :: rest) = space :: Spec.collapse_runs (lstrip rest).
Proof.
  revert c. induction rest as [|c' rest IH]; intros c Hc; rewrite (collapse_runs_space c _ Hc).
  - reflexivity.
  - simpl lstrip. destruct (isspace c') eqn:Hc'.
    + now apply IH.
    + reflexivity.
Qed.

Lemma lstrip_no_space (text : str) : starts_with_space (lstrip text) = false.
Proof.
  induction text as [|c rest IH]; simpl.
  - reflexivity.
  - destruct (isspace c) eqn:Hc; [exact IH | simpl; exact Hc].
Qed.

Lemma lstrip_collapse (text : str) :
  lstrip (Spec.collapse_runs text) = Spec.collapse_runs (lstrip text).
Proof.
  destruct text as [|c rest].
  - reflexivity.
  - destruct (isspace c) eqn:Hc.
    + rewrite (collapse_after_space rest c Hc).
      assert (Hl : lstrip (c :: rest) = lstrip rest) by (simpl; now rewrite Hc).
      rewrite Hl.
      change (lstrip (space :: Spec.collapse_runs (lstrip rest)))
        with (lstrip (Spec.collapse_runs (lstrip rest))).
      pose proof (lstrip_no_space rest) as Hns.
      destruct (lstrip rest) as [|d u]; [reflexivity|].
      simpl in Hns. simpl. rewrite Hns. simpl. now rewrite Hns.
    + simpl. rewrite Hc. simpl. now rewrite Hc.
Qed.

Lemma rstrip_app (a b : str) :
  Spec.rstrip (a ++ b)
  = match Spec.rstrip b with
    | [] => Spec.rstrip a
    | kept_b => a ++ kept_b
    end.
Proof.
  induction a as [|c a IH]; simpl.
  - destruct (Spec.rstrip b); reflexivity.
  - rewrite IH. destruct (Spec.rstrip b) as [|d kb]; [reflexivity|].
    destruct a; reflexivity.
Qed.

Lemma rstrip_word (c : Z) (cur : str) :
  isspace c = false -> Spec.rstrip (rev (c :: cur)) = rev (c :: cur).
Proof. intros Hc. simpl rev. now rewrite rstrip_snoc, Hc. Qed.

Lemma fields_nonempty (sep : Z -> bool) (cur text : str) (w : str) :
  In w (Spec.fields_from sep cur text) -> w <> [].
Proof.
  revert cur. induction text as [|c rest IH]; intros cur; simpl.
  - destruct cur as [|d cur']; [intros [] |].
    intros [<-|[]]. simpl. now destruct (rev cur').
  - destruct (sep c).
    + destruct cur as [|d cur']; [apply IH|].
      intros [<-|Hin]; [|now apply (IH [])].
      simpl. now destruct (rev cur').
    + apply IH.
Qed.

Lemma join_nonempty (sep : str) (w : str) (ws : list str) :
  w <> [] -> join sep (w :: ws) <> [].
Proof.
  intros Hw. simpl. destruct ws; [exact Hw|].
  destruct w; [congruence | discriminate].
Qed.

(** Trimming the collapsed text leaves the words joined by single
    spaces. *)
Lemma trim_collapse_join (text : str) :
  Spec.rstrip (Spec.collapse_runs (lstrip text)) = join [space] (Spec.fields_from isspace [] text)
  /\ forall c cur, isspace c = false ->
       Spec.rstrip (rev (c :: cur) ++ Spec.collapse_runs text)
       = join [space] (Spec.fields_from isspace (c :: cur) text).
Proof.
  induction text as [|d rest [IHmain IHaux]].
  - split; [reflexivity|].
    intros c cur Hc. rewrite app_nil_r. cbn [Spec.fields_from join].
    now apply rstrip_word.
  - split.
    + cbn [lstrip Spec.fields_from]. destruct (isspace d) eqn:Hd.
      * exact IHmain.
      * cbn [Spec.collapse_runs]. rewrite Hd.
        apply (IHaux d [] Hd).
    + intros c cur Hc. cbn [Spec.fields_from]. destruct (isspace d) eqn:Hd.
      * rewrite (collapse_after_space rest d Hd), rstrip_app.
        cbn [Spec.rstrip]. rewrite IHmain.
        destruct (Spec.fields_from isspace [] rest) as [|w ws] eqn:Hws.
        -- cbn [join]. simpl isspace. cbv iota. now apply rstrip_word.
        -- assert (Hw : w <> []).
           { apply (fields_nonempty isspace [] rest). rewrite Hws. now left. }
           pose proof (join_nonempty [space] w ws Hw) as Hj.
           change (join [space] (rev (c :: cur) :: w :: ws))
             with (rev (c :: cur) ++ [space] ++ join [space] (w :: ws)).
           destruct (join [space] (w :: ws)) as [|j js]; [congruence|].
           reflexivity.
      * cbn [Spec.collapse_runs]. rewrite Hd.
        replace (rev (c :: cur) ++ d :: Spec.collapse_runs rest)
          with (rev (d :: c :: cur) ++ Spec.collapse_runs rest)
          by (simpl; now rewrite <- !app_assoc).
        apply (IHaux d (c :: cur) Hd).
Qed.

Lemma strip_collapse_join (text : str) :
  str_strip (sub_space_runs text) = join [space] (str_split text).
Proof.
  unfold sub_space_runs, str_split.
  rewrite (proj1 (sub_space_runs_collapse text)), str_strip_spec, split_from_fields.
  unfold Spec.trim. rewrite lstrip_collapse.
  apply trim_collapse_join.
Qed.

Lemma preprocess_text_join (rt : Runtime) (text : str) :
  preprocess_text rt text = join [space] (Spec.words (str_lower rt text)).
Proof.
  unfold preprocess_text. rewrite strip_collapse_join.
  unfold str_split, Spec.words, Spec.fields. now rewrite split_sub_not_kept.
Qed.

Lemma split_preprocess_text (rt : Runtime) (text : str) :
  str_split (preprocess_text rt text) = Spec.words (str_lower rt text).
Proof.
  unfold preprocess_text. rewrite split_strip. unfold str_split, sub_space_runs.
  rewrite split_sub_space_runs by discriminate.
  unfold Spec.words, Spec.fields. now rewrite split_sub_not_kept.
Qed.

(** [preprocess_text] returns the words of the lower-cased text (its
    maximal runs of Hangul syllables, Latin letters and digits) joined by
    single spaces: no white space at the edges, none doubled, none but
    U+0020; and [split] gives the words back. *)
Theorem preprocess_text_joins_words (rt : Runtime) (text : str) :
  preprocess_text rt text = join [space] (Spec.words (str_lower rt text))
  /\ str_split (preprocess_text rt text) = Spec.words (str_lower rt text).
Proof. split; [apply preprocess_text_join | apply split_preprocess_text]. Qed.

Lemma str_lower_ascii_from (rt : Runtime) (whole text : str) (start : nat) :
  Forall is_ascii text ->
  flat_map (fun '(i, c) => if c <? 128 then [ascii_lower c] else tolower_full rt whole i)
           (enumerate_from start text)
  = map ascii_lower text.
Proof.
  intros Hall. revert start. induction Hall as [|c rest Hc _ IH]; intros start; simpl.
  - reflexivity.
  - replace (c <? 128) with true by (symmetry; apply Z.ltb_lt; apply Hc).
    simpl. now rewrite IH.
Qed.

Lemma str_lower_ascii (rt : Runtime) (text : str) :
  Forall is_ascii text -> str_lower rt text = map ascii_lower text.
Proof. apply str_lower_ascii_from. Qed.

Lemma fields_from_word (sep : Z -> bool) (w cur text : str) :
  Forall (fun c => sep c = false) w ->
  Spec.fields_from sep cur (w ++ text) = Spec.fields_from sep (rev w ++ cur) text.
Proof.
  intros Hw. revert cur. induction Hw as [|c w Hc _ IH]; intros cur; simpl.
  - reflexivity.
  - rewrite Hc, IH. now rewrite <- app_assoc.
Qed.

(** Splitting what [join] has joined gives the words back. *)
Lemma fields_join (sep : Z -> bool) (ws : list str) :
  sep space = true ->
  Forall (fun w => w <> [] /\ Forall (fun c => sep c = false) w) ws ->
  Spec.fields_from sep [] (join [space] ws) = ws.
Proof.
  intros Hsp Hws. induction Hws as [|w ws [Hne Hw] Hrest IH].
  - reflexivity.
  - assert (Hlast : Spec.fields_from sep (rev w) [] = [w]).
    { simpl. destruct (rev w) eqn:Hr.
      - apply (f_equal (@rev Z)) in Hr. rewrite rev_involutive in Hr. simpl in Hr. congruence.
      - now rewrite <- Hr, rev_involutive. }
    destruct ws as [|w2 ws'].
    + cbn [join]. rewrite <- (app_nil_r w) at 1.
      rewrite fields_from_word by exact Hw. now rewrite app_nil_r.
    + change (join [space] (w :: w2 :: ws')) with (w ++ space :: join [space] (w2 :: ws')).
      rewrite fields_from_word by exact Hw. rewrite app_nil_r.
      cbn [Spec.fields_from]. rewrite Hsp.
      destruct (rev w) eqn:Hr.
      * apply (f_equal (@rev Z)) in Hr. rewrite rev_involutive in Hr. simpl in Hr. congruence.
      * rewrite <- Hr, rev_involutive. now rewrite IH.
Qed.

Lemma fields_chars (sep : Z -> bool) (Q : Z -> Prop) (text cur w : str) :
  Forall Q cur ->
  (forall c, In c text -> sep c = false -> Q c) ->
  In w (Spec.fields_from sep cur text) -> Forall Q w.
Proof.
  revert cur. induction text as [|c rest IH]; intros cur Hcur Htext; simpl.
  - destruct cur as [|d cur']; [intros [] |].
    intros [<-|[]]. now apply Forall_rev.
  - destruct (sep c) eqn:Hc.
    + assert (Hrest : In w (Spec.fields_from sep [] rest) -> Forall Q w).
      { apply IH; [constructor|]. intros x Hx. apply Htext. now right. }
      destruct cur as [|d cur']; [exact Hrest|].
      intros [<-|Hin]; [now apply Forall_rev | now apply Hrest].
    + apply IH.
      * constructor; [|exact Hcur]. apply Htext; [now left | exact Hc].
      * intros x Hx. apply Htext. now right.
Qed.

Lemma Forall_join (Q : Z -> Prop) (ws : list str) :
  Q space -> Forall (Forall Q) ws -> Forall Q (join [space] ws).
Proof.
  intros Hsp Hws. induction Hws as [|w ws Hw _ IH].
  - constructor.
  - destruct ws as [|w2 ws']; [exact Hw|].
    change (join [space] (w :: w2 :: ws')) with (w ++ space :: join [space] (w2 :: ws')).
    apply Forall_app. split; [exact Hw|]. now constructor.
Qed.

Lemma word_char_of_ascii_lower (c : Z) :
  is_ascii c -> Spec.is_word_char (ascii_lower c) = true ->
  is_lower_alnum (ascii_lower c) = true.
Proof.
  unfold is_ascii, ascii_lower, Spec.is_word_char, Spec.is_latin_letter, is_lower_alnum,
    is_hangul_syllable, is_ascii_lower, is_ascii_upper, is_digit, in_range.
  intros Hc.
  destruct ((65 <=? c) && (c <=? 90)) eqn:Hup.
  - apply andb_true_iff in Hup. destruct Hup as [H1 H2].
    apply Z.leb_le in H1. apply Z.leb_le in H2. intros _.
    apply orb_true_iff. left. apply andb_true_iff. split; apply Z.leb_le; lia.
  - intros Hw. rewrite Hup in Hw. rewrite orb_false_r in Hw.
    replace ((44032 <=? c) && (c <=? 55203)) with false in Hw.
    + exact Hw.
    + symmetry. apply andb_false_iff. left. apply Z.leb_gt. lia.
Qed.

Lemma lower_alnum_facts (c : Z) :
  is_lower_alnum c = true ->
  is_ascii c /\ ascii_lower c = c /\ Spec.is_word_char c = true.
Proof.
  unfold is_ascii, ascii_lower, Spec.is_word_char, Spec.is_latin_letter, is_lower_alnum,
    is_hangul_syllable, is_ascii_lower, is_ascii_upper, is_digit, in_range.
  intros Hc. apply orb_true_iff in Hc.
  assert (Hrange : 97 <= c <= 122 \/ 48 <= c <= 57).
  { destruct Hc as [Hc|Hc]; apply andb_true_iff in Hc; destruct Hc as [H1 H2];
      apply Z.leb_le in H1; apply Z.leb_le in H2; [left | right]; lia. }
  split; [lia|]. split.
  - replace ((65 <=? c) && (c <=? 90)) with false; [reflexivity|].
    symmetry. apply andb_false_iff.
    destruct Hrange; [right; apply Z.leb_gt | left; apply Z.leb_gt]; lia.
  - destruct Hc as [Hc|Hc]; rewrite Hc; now rewrite ?orb_true_r.
Qed.

(** The words of an ASCII text are made of lower-case letters and
    digits. *)
Lemma words_of_ascii (rt : Runtime) (text w : str) :
  Forall is_ascii text ->
  In w (Spec.words (str_lower rt text)) ->
  w <> [] /\ Forall (fun c => is_lower_alnum c = true) w.
Proof.
  intros Hascii Hin. split.
  - now apply (fields_nonempty _ _ _ _ Hin).
  - apply (fields_chars _ (fun c => is_lower_alnum c = true) _ [] w (Forall_nil _)) in Hin;
      [exact Hin|].
    intros c Hc Hsep. apply negb_false_iff in Hsep.
    rewrite str_lower_ascii in Hc by exact Hascii.
    apply in_map_iff in Hc. destruct Hc as [c0 [<- Hc0]].
    apply word_char_of_ascii_lower; [|exact Hsep].
    rewrite Forall_forall in Hascii. now apply Hascii.
Qed.

(** Every token has at least 2 characters, each of them a Hangul
    syllable, a Latin letter or a digit taken from the lower-cased text, and
    none of them white space; the tokens of an ASCII text consist of
    lower-case letters and digits only. *)
Theorem tokens_alphabet (rt : Runtime) (text w : str) :
  In w (tokenize rt text) ->
  2 <= len w
  /\ Forall (fun c => Spec.is_word_char c = true /\ isspace c = false /\ In c (str_lower rt text)) w
  /\ (Forall is_ascii text -> Forall (fun c => is_lower_alnum c = true) w).
Proof.
  rewrite tokenize_words. intros Hin.
  split; [now apply (discard_short_length _ _ Hin)|].
  unfold Spec.discard_short in Hin. apply filter_In in Hin. destruct Hin as [Hin _].
  split.
  - apply (fields_chars _
             (fun c => Spec.is_word_char c = true /\ isspace c = false /\ In c (str_lower rt text))
             _ [] w (Forall_nil _)) in Hin; [exact Hin|].
    intros c Hc Hsep. apply negb_false_iff in Hsep.
    split; [exact Hsep|]. split; [now apply word_char_not_space | exact Hc].
  - intros Hascii. now apply (words_of_ascii rt text w Hascii).
Qed.

Lemma tokens_alphabet_witness :
  let rt := cpython (secret_of_seed 0) in
  In (lit "b2b") (tokenize rt (lit "Hello, B2B  World!"))
  /\ Forall is_ascii (lit "Hello, B2B  World!")
  /\ 2 <= len (lit "b2b")
  /\ Forall (fun c => is_lower_alnum c = true) (lit "b2b").
Proof.
  cbv zeta.
  assert (Hin : In (lit "b2b") (tokenize (cpython (secret_of_seed 0)) (lit "Hello, B2B  World!")))
    by (vm_compute; right; left; reflexivity).
  assert (Hascii : Forall is_ascii (lit "Hello, B2B  World!"))
    by (repeat constructor; unfold is_ascii; simpl; lia).
  destruct (tokens_alphabet (cpython (secret_of_seed 0)) (lit "Hello, B2B  World!") (lit "b2b") Hin)
    as (Hlen & _ & Halnum).
  split; [exact Hin|]. split; [exact Hascii|]. split; [exact Hlen|].
  exact (Halnum Hascii).
Defined.

(** On an ASCII text [preprocess_text] is idempotent, and tokenizing the
    preprocessed text gives the tokens of the text. *)
Theorem preprocess_text_idempotent (rt : Runtime) (text : str) :
  Forall is_ascii text ->
  preprocess_text rt (preprocess_text rt text) = preprocess_text rt text
  /\ tokenize rt (preprocess_text rt text) = tokenize rt text.
Proof.
  intros Hascii.
  pose proof (preprocess_text_join rt text) as Hjoin.
  assert (Hws : Forall (fun w => w <> [] /\ Forall (fun c => is_lower_alnum c = true) w)
                  (Spec.words (str_lower rt text))).
  { apply Forall_forall. intros w Hw. now apply (words_of_ascii rt text w). }
  assert (Hchars : Forall (fun c => is_ascii c /\ ascii_lower c = c)
                     (preprocess_text rt text)).
  { rewrite Hjoin. apply Forall_join.
    - unfold is_ascii, space. split; [lia | reflexivity].
    - eapply Forall_impl; [|exact Hws]. intros w [_ Hw].
      eapply Forall_impl; [|exact Hw]. intros c Hc.
      destruct (lower_alnum_facts c Hc) as (H1 & H2 & _). now split. }
  assert (Hlower : str_lower rt (preprocess_text rt text) = preprocess_text rt text).
  { rewrite str_lower_ascii.
    - rewrite <- (map_id (preprocess_text rt text)) at 2.
      apply map_ext_in. intros c Hc. rewrite Forall_forall in Hchars.
      now apply Hchars.
    - eapply Forall_impl; [|exact Hchars]. now intros c [Hc _]. }
  assert (Hwords : Spec.words (str_lower rt (preprocess_text rt text))
                   = Spec.words (str_lower rt text)).
  { rewrite Hlower, Hjoin. unfold Spec.words at 1, Spec.fields.
    apply fields_join; [reflexivity|].
    eapply Forall_impl; [|exact Hws]. intros w [Hne Hw]. split; [exact Hne|].
    eapply Forall_impl; [|exact Hw]. intros c Hc. cbv beta.
    destruct (lower_alnum_facts c Hc) as (_ & _ & H3). now rewrite H3. }
  split.
  - rewrite (preprocess_text_join rt (preprocess_text rt text)), Hwords. now rewrite <- Hjoin.
  - rewrite !tokenize_words. now rewrite Hwords.
Qed.

Lemma preprocess_text_idempotent_witness :
  let rt := cpython (secret_of_seed 0) in
  Forall is_ascii (lit "  Hello,   World! ")
  /\ preprocess_text rt (lit "  Hello,   World! ") = lit "hello world"
  /\ preprocess_text rt (preprocess_text rt (lit "  Hello,   World! "))
     = preprocess_text rt (lit "  Hello,   World! ").
Proof.
  cbv zeta.
  assert (Hascii : Forall is_ascii (lit "  Hello,   World! "))
    by (repeat constructor; unfold is_ascii; simpl; lia).
  split; [exact Hascii|]. split; [vm_compute; reflexivity|].
  exact (proj1 (preprocess_text_idempotent (cpython (secret_of_seed 0))
                  (lit "  Hello,   World! ") Hascii)).
Defined.

(** ** More about the vectors *)

Section SymmetryFacts.

Context {F : Type} `{MulComm F}.

Lemma products_swap (a b : list F) :
  map (fun '(x, y) => fmul x y) (combine a b) = map (fun '(x, y) => fmul x y) (combine b a).
Proof.
  revert b. induction a as [|x a IH]; intros [|y b]; simpl; try reflexivity.
  now rewrite IH, fmul_comm.
Qed.

Lemma dot_comm (a b : list F) : dot a b = dot b a.
Proof. unfold dot. now rewrite products_swap. Qed.

End SymmetryFacts.

Module FloatMul.

Import Floats.

Lemma SFmul_comm (prec emax : Z) (x y : spec_float) :
  SFmul prec emax x y = SFmul prec emax y x.
Proof.
  destruct x as [sx|sx| |sx mx ex], y as [sy|sy| |sy my ey]; simpl;
    rewrite ?(xorb_comm sx sy); try reflexivity.
  now rewrite (Pos.mul_comm mx my), (Z.add_comm ex ey).
Qed.

Lemma mul_laws : MulComm PrimFloat.float.
Proof.
  split. intros x y. simpl. apply Prim2SF_inj.
  rewrite !mul_spec. apply SFmul_comm.
Qed.

End FloatMul.

#[export] Instance float_mul_comm : MulComm PrimFloat.float := FloatMul.mul_laws.

#[export] Instance real_mul_comm : MulComm R.
Proof. split. intros x y. simpl. apply Rmult_comm. Qed.

(** [calculate_similarity] is symmetric in its two texts, in every
    arithmetic whose multiplication is commutative: binary64 (bit for bit)
    and the real numbers. *)
Theorem calculate_similarity_symmetric {F : Type} `{MulComm F}
    (rt : Runtime) (text1 text2 : str) :
  calculate_similarity rt text1 text2 = calculate_similarity rt text2 text1.
Proof. unfold calculate_similarity. cbv zeta. now rewrite dot_comm. Qed.

Lemma calculate_similarity_symmetric_witness :
  let rt := cpython (secret_of_seed 0) in
  calculate_similarity (F:=PrimFloat.float) rt (lit "hello world") (lit "hello there")
  = calculate_similarity rt (lit "hello there") (lit "hello world").
Proof.
  cbv zeta.
  exact (calculate_similarity_symmetric (F:=PrimFloat.float) (cpython (secret_of_seed 0))
           (lit "hello world") (lit "hello there")).
Defined.

Section RealVectors.

Variable rt : Runtime.

Open Scope R_scope.

Lemma dot_cons (x y : R) (a b : list R) : dot (x :: a) (y :: b) = x * y + dot a b.
Proof. unfold dot. simpl. apply py_sum_cons. Qed.

Lemma dot_nil_l (b : list R) : dot (F:=R) [] b = 0.
Proof. reflexivity. Qed.

Lemma dot_nil_r (a : list R) : dot (F:=R) a [] = 0.
Proof. destruct a; reflexivity. Qed.

(** Twice the dot product is at most the sum of the two sums of squares. *)
Lemma dot_le_squares (a b : list R) : 2 * dot a b <= sum_sq a + sum_sq b.
Proof.
  revert b. induction a as [|x a IH]; intros b.
  - rewrite dot_nil_l. pose proof (sum_sq_nonneg b). pose proof (sum_sq_nonneg []). lra.
  - destruct b as [|y b].
    + rewrite dot_nil_r. pose proof (sum_sq_nonneg (x :: a)). pose proof (sum_sq_nonneg []). lra.
    + rewrite dot_cons, !sum_sq_cons. specialize (IH b).
      assert (0 <= (x - y) * (x - y)) by (apply Rle_0_sqr). lra.
Qed.

Lemma create_embedding_sum_sq (text : str) :
  sum_sq (create_embedding rt text) = 1 \/ sum_sq (create_embedding rt text) = 0.
Proof.
  destruct (has_feature rt (tokenize rt text)) eqn:Hf.
  - left. pose proof (create_embedding_unit rt text Hf) as Hn.
    rewrite norm_sum_sq in Hn.
    rewrite <- (sqrt_sqrt (sum_sq (create_embedding rt text))) by apply sum_sq_nonneg.
    rewrite Hn. lra.
  - right. apply sum_sq_zeros. now apply create_embedding_zero.
Qed.

Lemma dot_embeddings_le_1 (text1 text2 : str) :
  dot (create_embedding (F:=R) rt text1) (create_embedding rt text2) <= 1.
Proof.
  pose proof (dot_le_squares (create_embedding rt text1) (create_embedding rt text2)).
  destruct (create_embedding_sum_sq text1), (create_embedding_sum_sq text2); lra.
Qed.

Lemma py_min_1_below (d : R) : d <= 1 -> py_min (F:=R) 1 d = d.
Proof.
  intros Hd. unfold py_min. simpl flt.
  destruct (Rltb d 1) eqn:Hlt; [reflexivity|].
  apply Rltb_false in Hlt. lra.
Qed.

Lemma similarity_dot (text1 text2 : str) :
  calculate_similarity (F:=R) rt text1 text2
  = dot (create_embedding rt text1) (create_embedding rt text2).
Proof.
  unfold calculate_similarity. cbv zeta.
  change (of_int (F:=R) 1) with 1. change (of_int (F:=R) 0) with 0.
  rewrite py_min_1_below by apply dot_embeddings_le_1.
  apply py_max_0_nonneg. apply dot_nonneg; apply create_embedding_nonneg.
Qed.

(** In exact arithmetic the dot product of two vectors of
    [create_embedding] lies in [0, 1], so neither clamp of
    [calculate_similarity] changes it: the similarity is the dot product. *)
Theorem similarity_is_cosine (text1 text2 : str) :
  let emb1 := create_embedding (F:=R) rt text1 in
  let emb2 := create_embedding (F:=R) rt text2 in
  0 <= dot emb1 emb2 <= 1
  /\ py_min (of_int 1) (dot emb1 emb2) = dot emb1 emb2
  /\ calculate_similarity rt text1 text2 = dot emb1 emb2.
Proof.
  cbv zeta. split; [split|split].
  - apply dot_nonneg; apply create_embedding_nonneg.
  - apply dot_embeddings_le_1.
  - apply py_min_1_below, dot_embeddings_le_1.
  - apply similarity_dot.
Qed.

Lemma contribution_le (token : str) (i : Z) (j : nat) :
  Spec.contribution (F:=R) rt token i j <= 999 / 1000.
Proof.
  unfold Spec.contribution. simpl.
  assert (Hh : (0 <= str_hash rt (token ++ str_of_int i) mod 1000 <= 999)%Z).
  { pose proof (Z.mod_pos_bound (str_hash rt (token ++ str_of_int i)) 1000). lia. }
  destruct Hh as [Hlo Hhi]. apply IZR_le in Hlo. apply IZR_le in Hhi.
  assert (Hj : 1 <= IZR (Z.of_nat j + 1)) by (apply IZR_le; lia).
  assert (Hw : 0 < 1 / IZR (Z.of_nat j + 1) <= 1).
  { split.
    - apply Rdiv_lt_0_compat; lra.
    - apply Rmult_le_reg_r with (IZR (Z.of_nat j + 1)); [lra|].
      unfold Rdiv. rewrite Rmult_assoc, Rinv_l by lra. lra. }
  assert (Hq : 0 <= IZR (str_hash rt (token ++ str_of_int i) mod 1000) / 1000 <= 999 / 1000)
    by lra.
  nra.
Qed.

Lemma sum_upto_le (f : nat -> R) (n : nat) (bound : R) :
  (forall j, (j < n)%nat -> f j <= bound) ->
  Spec.sum_upto f n <= IZR (Z.of_nat n) * bound.
Proof.
  induction n as [|n IH]; intros Hf.
  - simpl. lra.
  - cbn [Spec.sum_upto]. rewrite Nat2Z.inj_succ, succ_IZR.
    assert (Spec.sum_upto f n <= IZR (Z.of_nat n) * bound) by (apply IH; intros; apply Hf; lia).
    assert (f n <= bound) by (apply Hf; lia).
    simpl fadd. lra.
Qed.

Lemma component_le (tokens : list str) (i : Z) :
  component (F:=R) rt tokens i <= 999 / 1000.
Proof.
  rewrite component_spec. unfold Spec.raw_component. simpl fdiv.
  pose proof (len_divisor_pos tokens) as Hpos.
  apply Rmult_le_reg_r with (IZR (Z.max (len tokens) 1)); [exact Hpos|].
  unfold Rdiv. rewrite Rmult_assoc, Rinv_l, Rmult_1_r by lra.
  pose proof (sum_upto_le (fun j => Spec.contribution rt (nth j tokens []) i j)
                (List.length tokens) (999 / 1000)
                (fun j _ => contribution_le (nth j tokens []) i j)) as Hsum.
  assert (Hlen : IZR (Z.of_nat (List.length tokens)) <= IZR (Z.max (len tokens) 1))
    by (apply IZR_le; unfold len; lia).
  assert (0 <= IZR (Z.of_nat (List.length tokens))) by (apply IZR_le; lia).
  eapply Rle_trans; [exact Hsum|]. lra.
Qed.

Lemma square_le_sum_sq (v : list R) (x : R) : In x v -> x * x <= sum_sq v.
Proof.
  induction v as [|y v IH]; intros Hin.
  - destruct Hin.
  - rewrite sum_sq_cons. pose proof (sum_sq_nonneg v).
    assert (0 <= y * y) by (apply Rle_0_sqr).
    destruct Hin as [->|Hin]; [lra|]. specialize (IH Hin). lra.
Qed.

(** In exact arithmetic every component of the vector before
    normalisation lies in [0, 0.999] and every component of the vector
    returned lies in [0, 1]. *)
Theorem create_embedding_bounds (text : str) :
  Forall (fun x => 0 <= x <= 999 / 1000) (raw_embedding (F:=R) rt (tokenize rt text))
  /\ Forall (fun x => 0 <= x <= 1) (create_embedding (F:=R) rt text).
Proof.
  split.
  - unfold raw_embedding. apply Forall_map, Forall_forall. intros i _.
    split; [apply component_nonneg | apply component_le].
  - apply Forall_forall. intros x Hx. split.
    + pose proof (create_embedding_nonneg rt text) as Hnn.
      rewrite Forall_forall in Hnn. now apply Hnn.
    + pose proof (square_le_sum_sq _ x Hx) as Hsq.
      pose proof (create_embedding_nonneg rt text) as Hnn.
      rewrite Forall_forall in Hnn. specialize (Hnn x Hx).
      destruct (create_embedding_sum_sq text) as [Hs|Hs]; rewrite Hs in Hsq; nra.
Qed.

(** In exact arithmetic the normalisation step is idempotent. *)
Theorem normalize_idempotent (v : list R) :
  normalize (normalize v) = normalize v.
Proof.
  destruct (Rlt_dec 0 (norm (F:=R) v)) as [Hn|Hn].
  - assert (Hpos : 0 < sum_sq v).
    { rewrite norm_sum_sq in Hn. pose proof (sum_sq_nonneg v) as Hnn.
      destruct (Rle_lt_or_eq_dec _ _ Hnn) as [Hlt|Heq]; [exact Hlt|].
      rewrite <- Heq, sqrt_0 in Hn. lra. }
    pose proof (normalize_unit v Hpos) as Hunit.
    rewrite (normalize_pos (normalize v)) by (rewrite Hunit; lra).
    rewrite Hunit. rewrite <- (map_id (normalize v)) at 2.
    apply map_ext. intros x. unfold Rdiv. rewrite Rinv_1. lra.
  - rewrite (normalize_nonpos v) by lra. apply normalize_nonpos. lra.
Qed.

Lemma dot_zeros_r (a b : list R) : Forall (fun x => x = 0) b -> dot a b = 0.
Proof.
  intros Hb. revert a. induction Hb as [|y b Hy _ IH]; intros a.
  - apply dot_nil_r.
  - destruct a as [|x a]; [reflexivity|].
    rewrite dot_cons, IH, Hy. lra.
Qed.

Lemma similarity_without_tokens (text1 text2 : str) :
  tokenize rt text1 = [] \/ tokenize rt text2 = [] ->
  calculate_similarity (F:=R) rt text1 text2 = 0.
Proof.
  intros Hnone. rewrite similarity_dot.
  destruct Hnone as [Hnone|Hnone].
  - apply dot_zeros. apply create_embedding_zero. rewrite Hnone. apply has_feature_nil.
  - apply dot_zeros_r. apply create_embedding_zero. rewrite Hnone. apply has_feature_nil.
Qed.

End RealVectors.

(** ** More about the handlers *)

Section MoreHandlerFacts.

Context {F : Type} `{Arith F}.

Variable rt : Runtime.

Lemma for_each_ok (items : list (json F)) :
  forallb is_str items = true ->
  exists vectors,
    for_each (create_embedding_of rt) items = Ok vectors
    /\ List.length vectors = List.length items
    /\ Forall (fun v => List.length v = 768%nat) vectors.
Proof.
  induction items as [|item items IH]; intros Hall.
  - exists []. repeat split. constructor.
  - simpl in Hall. apply andb_true_iff in Hall. destruct Hall as [Hitem Hrest].
    destruct (IH Hrest) as [vectors [Hfor [Hlen Hdim]]].
    destruct item; try discriminate.
    exists (create_embedding rt s :: vectors). simpl. rewrite Hfor. simpl.
    repeat split.
    + now rewrite Hlen.
    + constructor; [apply create_embedding_length | exact Hdim].
Qed.

Lemma for_each_all_str (items : list (json F)) (vectors : list (list F)) :
  for_each (create_embedding_of rt) items = Ok vectors -> forallb is_str items = true.
Proof.
  revert vectors. induction items as [|item items IH]; intros vectors Hfor.
  - reflexivity.
  - simpl in Hfor. destruct item; try discriminate. simpl.
    destruct (for_each (create_embedding_of rt) items) as [vs|e] eqn:Hrest; [|discriminate].
    now apply (IH vs).
Qed.

Lemma for_each_first_bad (strings : list str) (bad : json F) (rest : list (json F)) :
  is_str bad = false ->
  for_each (create_embedding_of rt) (map JStr strings ++ bad :: rest)
  = Raise (AttributeError (type_name bad) "lower").
Proof.
  intros Hbad. induction strings as [|s strings IH]; simpl.
  - destruct bad; try discriminate; reflexivity.
  - now rewrite IH.
Qed.

(** POST /embed answers with status 200, 400 or 500: with 200 exactly
    when the body is an object whose [texts] is non-empty and iterable and
    yields strings only, with 400 exactly when the body is an object whose
    [texts] is empty, absent or otherwise false, and with 500 in every other
    case (unreadable body, body that is not an object, [texts] that cannot
    be iterated, entry that is not a string). *)
Theorem handle_embed_request_status (request : result (json F)) (start_time end_time : F) :
  let r := handle_embed_request rt request start_time end_time in
  (status_code r = 200 \/ status_code r = 400 \/ status_code r = 500)
  /\ (status_code r = 200 <->
      exists entries items,
        request = Ok (JDict entries)
        /\ truthy (entry_or entries (lit "texts") (JList [])) = true
        /\ iter (entry_or entries (lit "texts") (JList [])) = Ok items
        /\ forallb is_str items = true)
  /\ (status_code r = 400 <->
      exists entries,
        request = Ok (JDict entries)
        /\ truthy (entry_or entries (lit "texts") (JList [])) = false).
Proof.
  cbv zeta.
  destruct request as [request_data|e].
  2:{ simpl. split; [auto|]. split; split; try discriminate; try (intros; reflexivity).
      - intros (entries & items & Hreq & _). discriminate.
      - intros (entries & Hreq & _). discriminate. }
  destruct request_data as [ | b | n | x | s | items | entries];
    try (simpl; split; [auto|]; split; split; try discriminate; try (intros; reflexivity);
         [intros (entries & items' & Hreq & _) | intros (entries & Hreq & _)]; discriminate).
  rewrite handle_embed_request_texts. cbv zeta.
  destruct (truthy (entry_or entries (lit "texts") (JList []))) eqn:Htruthy; simpl negb; cbv iota.
  - destruct (iter (entry_or entries (lit "texts") (JList []))) as [items|e] eqn:Hiter;
      cbn [bind].
    + destruct (for_each (create_embedding_of rt) items) as [vectors|e] eqn:Hfor; simpl.
      * split; [auto|]. split; split; try discriminate; try (intros; reflexivity).
        -- intros _. exists entries, items. repeat split; auto.
           now apply (for_each_all_str items vectors).
        -- intros (entries' & Hreq & Hfalse). injection Hreq as <-. congruence.
      * split; [auto|]. split; split; try discriminate; try (intros; reflexivity).
        -- intros (entries' & items' & Hreq & _ & Hiter' & Hall). injection Hreq as <-.
           rewrite Hiter in Hiter'. injection Hiter' as <-.
           destruct (for_each_ok items Hall) as [vs [Hvs _]]. congruence.
        -- intros (entries' & Hreq & Hfalse). injection Hreq as <-. congruence.
    + simpl. split; [auto|]. split; split; try discriminate; try (intros; reflexivity).
      * intros (entries' & items' & Hreq & _ & Hiter' & _). injection Hreq as <-. congruence.
      * intros (entries' & Hreq & Hfalse). injection Hreq as <-. congruence.
  - simpl. split; [auto|]. split; split; try discriminate; try (intros; reflexivity).
    + intros (entries' & items' & Hreq & Htrue & _). injection Hreq as <-. congruence.
    + intros _. exists entries. auto.
Qed.

(** When [texts] is a list whose first entry that is not a string is
    [bad], POST /embed answers with status 500 and the message of the
    attribute error on [bad]; no vector is returned, not even for the
    strings before it. *)
Theorem handle_embed_request_bad_entry
    (entries : list (str * json F)) (strings : list str) (bad : json F) (rest : list (json F))
    (start_time end_time : F) :
  entry_or entries (lit "texts") (JList []) = JList (map JStr strings ++ bad :: rest) ->
  is_str bad = false ->
  handle_embed_request rt (Ok (JDict entries)) start_time end_time
  = {| status_code := 500;
       data := JDict [(lit "error",
                       JStr (lit ("'" ++ type_name bad ++ "' object has no attribute 'lower'")))] |}.
Proof.
  intros Htexts Hbad. rewrite handle_embed_request_texts. cbv zeta. rewrite Htexts.
  assert (Htruthy : truthy (JList (map JStr strings ++ bad :: rest)) = true)
    by (destruct strings; reflexivity).
  rewrite Htruthy. simpl negb. cbv iota. cbn [iter bind].
  now rewrite (for_each_first_bad strings bad rest Hbad).
Qed.

(** The dimension that GET /model-info reports is the length of every
    vector of [create_embedding]; an accepted POST /embed reports the same
    dimension and returns one vector of that length per text, in the order
    of the texts. *)
Theorem dimension_consistent (text : str) (entries : list (str * json F)) (strings : list str)
    (start_time end_time : F) :
  response_field (lit "dimension") (send_model_info (F:=F))
  = Some (JInt (len (create_embedding rt text)))
  /\ (entry_or entries (lit "texts") (JList []) = JList (map JStr strings) ->
      strings <> [] ->
      let r := handle_embed_request rt (Ok (JDict entries)) start_time end_time in
      response_field (lit "dimension") r = Some (JInt 768)
      /\ exists vectors,
           response_field (lit "embeddings") r
           = Some (JList (map (fun v => JList (map JFloat v)) vectors))
           /\ vectors = map (create_embedding rt) strings
           /\ len vectors = len strings
           /\ Forall (fun v => len v = 768) vectors).
Proof.
  split.
  - unfold len. rewrite create_embedding_length. reflexivity.
  - intros Htexts Hne. cbv zeta. rewrite handle_embed_request_texts. cbv zeta. rewrite Htexts.
    assert (Htruthy : truthy (F:=F) (JList (map JStr strings)) = true)
      by (destruct strings; [congruence | reflexivity]).
    rewrite Htruthy. simpl negb. cbv iota. cbn [iter bind].
    rewrite for_each_strings. split; [reflexivity|].
    exists (map (create_embedding rt) strings). repeat split.
    + unfold len. now rewrite length_map.
    + apply Forall_map, Forall_forall. intros s _. unfold len.
      now rewrite create_embedding_length.
Qed.

Lemma handle_similarity_request_texts (entries : list (str * json F)) (start_time end_time : F) :
  handle_similarity_request rt (Ok (JDict entries)) start_time end_time
  = let text1 := entry_or entries (lit "text1") (JStr []) in
    let text2 := entry_or entries (lit "text2") (JStr []) in
    if negb (truthy text1) || negb (truthy text2)
    then {| status_code := 400;
            data := JDict [(lit "error", JStr (lit "Both text1 and text2 are required"))] |}
    else match calculate_similarity_of rt text1 text2 with
         | Ok similarity =>
             {| status_code := 200;
                data := JDict [(lit "similarity", JFloat similarity);
                               (lit "processing_time", JFloat (fsub end_time start_time))] |}
         | Raise e => {| status_code := 500; data := JDict [(lit "error", JStr (str_of_exn e))] |}
         end.
Proof.
  unfold handle_similarity_request. cbn [bind]. rewrite !get_dict. cbn [bind]. cbv zeta.
  destruct (negb _ || negb _); [reflexivity|].
  destruct (calculate_similarity_of rt _ _); reflexivity.
Qed.

(** POST /similarity answers with status 200, 400 or 500: with 200
    exactly when the body is an object whose [text1] and [text2] are
    non-empty strings, with 400 exactly when the body is an object in which
    one of them is empty, absent or otherwise false, and with 500 in every
    other case. *)
Theorem handle_similarity_request_status (request : result (json F)) (start_time end_time : F) :
  let r := handle_similarity_request rt request start_time end_time in
  (status_code r = 200 \/ status_code r = 400 \/ status_code r = 500)
  /\ (status_code r = 200 <->
      exists entries s1 s2,
        request = Ok (JDict entries)
        /\ entry_or entries (lit "text1") (JStr []) = JStr s1
        /\ entry_or entries (lit "text2") (JStr []) = JStr s2
        /\ s1 <> [] /\ s2 <> [])
  /\ (status_code r = 400 <->
      exists entries,
        request = Ok (JDict entries)
        /\ (truthy (entry_or entries (lit "text1") (JStr [])) = false
            \/ truthy (entry_or entries (lit "text2") (JStr [])) = false)).
Proof.
  cbv zeta.
  destruct request as [request_data|e].
  2:{ simpl. split; [auto|]. split; split; try discriminate; try (intros; reflexivity).
      - intros (entries & s1 & s2 & Hreq & _). discriminate.
      - intros (entries & Hreq & _). discriminate. }
  destruct request_data as [ | b | n | x | s | items | entries];
    try (simpl; split; [auto|]; split; split; try discriminate; try (intros; reflexivity);
         [intros (entries & s1 & s2 & Hreq & _) | intros (entries & Hreq & _)]; discriminate).
  rewrite handle_similarity_request_texts. cbv zeta.
  destruct (truthy (entry_or entries (lit "text1") (JStr []))) eqn:H1;
    destruct (truthy (entry_or entries (lit "text2") (JStr []))) eqn:H2; simpl negb; simpl orb;
    cbv iota.
  - destruct (entry_or entries (lit "text1") (JStr [])) as [ | b1 | n1 | x1 | s1 | l1 | d1] eqn:E1;
      destruct (entry_or entries (lit "text2") (JStr [])) as [ | b2 | n2 | x2 | s2 | l2 | d2] eqn:E2;
      simpl; (split; [auto|]); split; split; try discriminate; try (intros; reflexivity);
      try (intros (entries' & s1' & s2' & Hreq & He1 & He2 & _); injection Hreq as <-; congruence);
      try (intros (entries' & Hreq & [Hf|Hf]); injection Hreq as <-; congruence).
    intros _. exists entries, s1, s2. repeat split; auto.
    + intros ->. simpl in H1. discriminate.
    + intros ->. simpl in H2. discriminate.
  - simpl. split; [auto|]. split; split; try discriminate; try (intros; reflexivity).
    + intros (entries' & s1 & s2 & Hreq & He1 & He2 & Hn1 & Hn2). injection Hreq as <-.
      rewrite He2 in H2. destruct s2; [congruence | discriminate].
    + intros _. exists entries. auto.
  - simpl. split; [auto|]. split; split; try discriminate; try (intros; reflexivity).
    + intros (entries' & s1 & s2 & Hreq & He1 & He2 & Hn1 & Hn2). injection Hreq as <-.
      rewrite He1 in H1. destruct s1; [congruence | discriminate].
    + intros _. exists entries. auto.
  - simpl. split; [auto|]. split; split; try discriminate; try (intros; reflexivity).
    + intros (entries' & s1 & s2 & Hreq & He1 & He2 & Hn1 & Hn2). injection Hreq as <-.
      rewrite He1 in H1. destruct s1; [congruence | discriminate].
    + intros _. exists entries. auto.
Qed.

(** No path is served by both methods: a path that GET answers with an
    object (always with status 200) is answered 404 by POST, and a path
    that POST hands to a handler is answered 404 by GET. *)
Theorem routes_disjoint (path : str) (request : result (json F)) (start_time end_time : F) :
  (forall r, do_GET (F:=F) path = SendJson r ->
     status_code r = 200
     /\ do_POST rt path request start_time end_time = SendError 404 (lit "Not Found"))
  /\ (forall r, do_POST rt path request start_time end_time = SendJson r ->
        do_GET (F:=F) path = SendError 404 (lit "Not Found")).
Proof.
  unfold do_GET, do_POST. split.
  - intros r.
    destruct (str_eqb path (lit "/health")) eqn:E1.
    { apply str_eqb_eq in E1. subst path. intros Hr. injection Hr as <-. now split. }
    destruct (str_eqb path (lit "/model-info")) eqn:E2.
    { apply str_eqb_eq in E2. subst path. intros Hr. injection Hr as <-. now split. }
    destruct (str_eqb path (lit "/")) eqn:E3.
    { apply str_eqb_eq in E3. subst path. intros Hr. injection Hr as <-. now split. }
    discriminate.
  - intros r.
    destruct (str_eqb path (lit "/embed")) eqn:E1.
    { apply str_eqb_eq in E1. subst path. reflexivity. }
    destruct (str_eqb path (lit "/similarity")) eqn:E2.
    { apply str_eqb_eq in E2. subst path. reflexivity. }
    discriminate.
Qed.

End MoreHandlerFacts.


Lemma dimension_consistent_witness :
  let rt := cpython (secret_of_seed 0) in
  let strings := [[0xC548; 0xB155; 0xD558; 0xC138; 0xC694]; lit "Hello World"] in
  let entries := [(lit "texts", @JList PrimFloat.float (map JStr strings));
                  (lit "normalize", JBool true)] in
  strings <> []
  /\ response_field (lit "dimension")
       (handle_embed_request rt (Ok (JDict entries)) (of_int 0) (of_int 0))
     = Some (JInt 768).
Proof.
  cbv zeta.
  assert (Hne : [[0xC548; 0xB155; 0xD558; 0xC138; 0xC694]; lit "Hello World"] <> @nil str)
    by discriminate.
  split; [exact Hne|].
  destruct (dimension_consistent (F:=PrimFloat.float) (cpython (secret_of_seed 0)) []
              [(lit "texts", JList (map JStr [[0xC548; 0xB155; 0xD558; 0xC138; 0xC694];
                                               lit "Hello World"]));
               (lit "normalize", JBool true)]
              [[0xC548; 0xB155; 0xD558; 0xC138; 0xC694]; lit "Hello World"]
              (of_int 0) (of_int 0)) as [_ Hembed].
  exact (proj1 (Hembed eq_refl Hne)).
Defined.

Lemma handle_embed_request_bad_entry_witness :
  let rt := cpython (secret_of_seed 0) in
  let entries := [(lit "texts", @JList PrimFloat.float [JStr (lit "hello"); JInt 5; JNull])] in
  is_str (F:=PrimFloat.float) (JInt 5) = false
  /\ handle_embed_request rt (Ok (JDict entries)) (of_int 0) (of_int 0)
     = {| status_code := 500;
          data := JDict [(lit "error", JStr (lit "'int' object has no attribute 'lower'"))] |}.
Proof.
  cbv zeta. split; [reflexivity|].
  exact (handle_embed_request_bad_entry (F:=PrimFloat.float) (cpython (secret_of_seed 0))
           [(lit "texts", JList [JStr (lit "hello"); JInt 5; JNull])]
           [lit "hello"] (JInt 5) [JNull] (of_int 0) (of_int 0) eq_refl eq_refl).
Defined.

Lemma routes_disjoint_witness :
  let rt := cpython (secret_of_seed 0) in
  do_GET (F:=PrimFloat.float) (lit "/health") = SendJson send_health_response
  /\ do_POST rt (lit "/health") (@Ok (json PrimFloat.float) (JDict [])) (of_int 0) (of_int 0)
     = SendError 404 (lit "Not Found").
Proof.
  cbv zeta.
  assert (Hget : do_GET (F:=PrimFloat.float) (lit "/health") = SendJson send_health_response)
    by reflexivity.
  split; [exact Hget|].
  destruct (routes_disjoint (F:=PrimFloat.float) (cpython (secret_of_seed 0)) (lit "/health")
              (Ok (JDict [])) (of_int 0) (of_int 0)) as [Hg _].
  exact (proj2 (Hg send_health_response Hget)).
Defined.

(** ** Edge cases of the handlers *)

Lemma tokenize_single_ascii (rt : Runtime) (c : Z) : is_ascii c -> tokenize rt [c] = [].
Proof.
  intros Hc. rewrite tokenize_words, str_lower_ascii by (constructor; [exact Hc | constructor]).
  unfold Spec.words, Spec.fields. simpl.
  destruct (Spec.is_word_char (ascii_lower c)); reflexivity.
Qed.

Lemma map_JFloat_repeat {F : Type} (x : F) (n : nat) :
  map (@JFloat F) (repeat x n) = repeat (JFloat x) n.
Proof. induction n as [|n IH]; simpl; [reflexivity | now rewrite IH]. Qed.

(** When [texts] is a non-empty string instead of a list, POST /embed
    loops over its characters: for an ASCII string it answers with status
    200 and one zero vector of length 768 per character. *)
Theorem embed_string_as_texts (rt : Runtime) (entries : list (str * json PrimFloat.float))
    (s : str) (start_time end_time : PrimFloat.float) :
  entry_or entries (lit "texts") (JList []) = JStr s ->
  s <> [] ->
  Forall is_ascii s ->
  handle_embed_request rt (Ok (JDict entries)) start_time end_time
  = {| status_code := 200;
       data := JDict [(lit "embeddings",
                       JList (map (fun _ => JList (repeat (JFloat (of_int 0)) 768)) s));
                      (lit "model_name", JStr model_name);
                      (lit "dimension", JInt dimension);
                      (lit "processing_time", JFloat (fsub end_time start_time))] |}.
Proof.
  intros Htexts Hne Hascii. rewrite handle_embed_request_texts. cbv zeta. rewrite Htexts.
  assert (Htruthy : truthy (F:=PrimFloat.float) (JStr s) = true)
    by (destruct s; [congruence | reflexivity]).
  rewrite Htruthy. simpl negb. cbv iota. cbn [iter bind].
  replace (map (fun c => @JStr PrimFloat.float [c]) s)
    with (map (@JStr PrimFloat.float) (map (fun c => [c]) s)) by apply map_map.
  rewrite for_each_strings. rewrite !map_map.
  do 3 f_equal. f_equal. f_equal.
  apply map_ext_in. intros c Hc.
  rewrite create_embedding_no_tokens_float.
  - now rewrite map_JFloat_repeat.
  - apply tokenize_single_ascii. rewrite Forall_forall in Hascii. now apply Hascii.
Qed.

Lemma embed_string_as_texts_witness :
  let rt := cpython (secret_of_seed 0) in
  let entries := [(lit "texts", @JStr PrimFloat.float (lit "hi"))] in
  Forall is_ascii (lit "hi")
  /\ response_field (lit "embeddings")
       (handle_embed_request rt (Ok (JDict entries)) (of_int 0) (of_int 0))
     = Some (JList [JList (repeat (JFloat (of_int 0)) 768);
                    JList (repeat (JFloat (of_int 0)) 768)]).
Proof.
  cbv zeta.
  assert (Hascii : Forall is_ascii (lit "hi"))
    by (repeat constructor; unfold is_ascii; simpl; lia).
  split; [exact Hascii|].
  rewrite (embed_string_as_texts (cpython (secret_of_seed 0))
             [(lit "texts", JStr (lit "hi"))] (lit "hi") (of_int 0) (of_int 0) eq_refl).
  - reflexivity.
  - discriminate.
  - exact Hascii.
Defined.

(** A text that is not empty but has no token (white space, punctuation,
    single letters) passes the validation of POST /similarity: the request
    is answered with status 200 and, in exact arithmetic, similarity 0,
    whatever the other text is. *)
Theorem blank_text_similarity (rt : Runtime) (entries : list (str * json R))
    (s1 s2 : str) (start_time end_time : R) :
  entry_or entries (lit "text1") (JStr []) = JStr s1 ->
  entry_or entries (lit "text2") (JStr []) = JStr s2 ->
  s1 <> [] -> s2 <> [] ->
  tokenize rt s1 = [] \/ tokenize rt s2 = [] ->
  handle_similarity_request rt (Ok (JDict entries)) start_time end_time
  = {| status_code := 200;
       data := JDict [(lit "similarity", JFloat 0%R);
                      (lit "processing_time", JFloat (end_time - start_time)%R)] |}.
Proof.
  intros H1 H2 Hn1 Hn2 Hnone. rewrite handle_similarity_request_texts. cbv zeta.
  rewrite H1, H2.
  destruct s1 as [|c1 s1]; [congruence|]. destruct s2 as [|c2 s2]; [congruence|].
  simpl. now rewrite (similarity_without_tokens rt _ _ Hnone).
Qed.

Lemma blank_text_similarity_witness :
  let rt := cpython (secret_of_seed 0) in
  let entries := [(lit "text1", @JStr R (lit "   ")); (lit "text2", JStr (lit "hello"))] in
  tokenize rt (lit "   ") = []
  /\ handle_similarity_request rt (Ok (JDict entries)) 0%R 1%R
     = {| status_code := 200;
          data := JDict [(lit "similarity", JFloat 0%R);
                         (lit "processing_time", JFloat (1 - 0)%R)] |}.
Proof.
  cbv zeta.
  assert (Hnone : tokenize (cpython (secret_of_seed 0)) (lit "   ") = [])
    by (vm_compute; reflexivity).
  split; [exact Hnone|].
  apply (blank_text_similarity (cpython (secret_of_seed 0))
           [(lit "text1", JStr (lit "   ")); (lit "text2", JStr (lit "hello"))]
           (lit "   ") (lit "hello")).
  - reflexivity.
  - reflexivity.
  - discriminate.
  - discriminate.
  - left. exact Hnone.
Defined.

(** ** The model-backed server *)

Section ModelServerFacts.

Import ModelServer.

Context {F : Type} `{Arith F}.

Variable str_of_failure : failure -> str.

Lemma filter_all_blank (texts : list str) :
  Forall (fun text => str_strip text = []) texts ->
  filter (fun text => negb (is_empty (str_strip text))) texts = [].
Proof.
  induction 1 as [|text texts Hblank _ IH]; simpl.
  - reflexivity.
  - now rewrite Hblank.
Qed.

(** The model-backed [create_embeddings] never answers 400: its
    [HTTPException(400)] for a request without a non-blank text is raised
    inside the [try] block, caught by [except Exception] and raised again
    with status 500.  The only statuses raised are 503 (model not loaded)
    and 500, and a returned response holds what the model made of the
    stripped non-blank texts. *)
Theorem create_embeddings_never_400
    (model : option (SentenceTransformer (F:=F))) (request : EmbeddingRequest)
    (start_time end_time : F) :
  let outcome := create_embeddings str_of_failure model request start_time end_time in
  (forall status detail, outcome = Raises (HTTPException status detail) ->
     status = 503 \/ status = 500)
  /\ (forall message, outcome <> Raises (OtherException message))
  /\ (model = None -> outcome = Raises (HTTPException 503 (lit "Model not loaded")))
  /\ (model <> None ->
      Forall (fun text => str_strip text = []) (texts request) ->
      outcome
      = Raises (HTTPException 500
                  (lit "Embedding generation failed: "
                   ++ str_of_failure (HTTPException 400 (lit "No valid texts provided")))))
  /\ (forall response, outcome = Returns response ->
      exists m,
        model = Some m
        /\ encode m (map str_strip
                       (filter (fun text => negb (is_empty (str_strip text))) (texts request)))
                  (normalize_flag request)
           = Returns (embeddings response)).
Proof.
  cbv zeta. unfold create_embeddings.
  destruct model as [m|].
  - split; [|split; [|split; [|split]]].
    + intros status detail.
      destruct (create_embeddings_body m request start_time end_time); [discriminate|].
      intros Heq. injection Heq as <- _. now right.
    + intros message.
      destruct (create_embeddings_body m request start_time end_time); discriminate.
    + discriminate.
    + intros _ Hblank. unfold create_embeddings_body. cbv zeta.
      now rewrite (filter_all_blank _ Hblank).
    + intros response. unfold create_embeddings_body. cbv zeta.
      destruct (map str_strip _) as [|t ts] eqn:Htexts; [discriminate|].
      destruct (encode m (t :: ts) (normalize_flag request)) as [vectors|e] eqn:Henc;
        [|discriminate].
      intros Heq. injection Heq as <-. exists m. split; [reflexivity|]. exact Henc.
  - split; [|split; [|split; [|split]]].
    + intros status detail Heq. injection Heq as <- _. now left.
    + discriminate.
    + reflexivity.
    + congruence.
    + discriminate.
Qed.

End ModelServerFacts.

Lemma create_embeddings_never_400_witness :
  let model := {| ModelServer.encode := fun texts _ => ModelServer.Returns (map (fun _ => [0%R]) texts);
                  ModelServer.get_sentence_embedding_dimension := 1 |} in
  let request := {| ModelServer.texts := [lit "   "; []]; ModelServer.normalize_flag := true |} in
  Some model <> None
  /\ Forall (fun text => str_strip text = []) (ModelServer.texts request)
  /\ ModelServer.create_embeddings (fun _ => lit "400: No valid texts provided")
       (Some model) request 0%R 0%R
     = ModelServer.Raises
         (ModelServer.HTTPException 500
            (lit "Embedding generation failed: 400: No valid texts provided")).
Proof.
  cbv zeta.
  assert (Hblank : Forall (fun text => str_strip text = []) [lit "   "; []])
    by (repeat constructor).
  split; [discriminate|]. split; [exact Hblank|].
  apply (create_embeddings_never_400 (F:=R) (fun _ => lit "400: No valid texts provided")).
  - discriminate.
  - exact Hblank.
Defined.

(** ** Features shared by tokens that differ by a decimal suffix *)

Lemma range_In (n i : Z) : 0 <= i < n -> In i (range n).
Proof.
  intros Hi. unfold range. apply in_map_iff. exists (Z.to_nat i).
  split; [lia|]. apply in_seq. lia.
Qed.

Lemma str_of_int_append_digit (k d : Z) :
  1 <= k <= 76 -> 0 <= d <= 9 -> str_of_int (10 * k + d) = str_of_int k ++ [48 + d].
Proof.
  intros Hk Hd.
  assert (Hall : forallb (fun k0 =>
                   forallb (fun d0 => str_eqb (str_of_int (10 * (1 + k0) + d0))
                                              (str_of_int (1 + k0) ++ [48 + d0]))
                           (range 10))
                   (range 76) = true) by (vm_compute; reflexivity).
  rewrite forallb_forall in Hall.
  specialize (Hall (k - 1) (range_In 76 (k - 1) ltac:(lia))).
  rewrite forallb_forall in Hall.
  specialize (Hall d (range_In 10 d ltac:(lia))).
  apply str_eqb_eq in Hall.
  replace (1 + (k - 1)) with k in Hall by lia. exact Hall.
Qed.

(** The hashed string is the token followed by the decimal dimension,
    with nothing between them: for a token ending in the decimal [k]
    (1 <= k <= 76) the feature of dimension [d] (0 <= d <= 9) is the
    feature of dimension [10 k + d] of the token without [k], whatever the
    hash is. *)
Theorem suffix_feature_collision {F : Type} `{Arith F}
    (rt : Runtime) (token : str) (k d : Z) (j : nat) (value : F) :
  1 <= k <= 76 -> 0 <= d <= 9 ->
  token ++ str_of_int k ++ str_of_int d = token ++ str_of_int (10 * k + d)
  /\ add_token rt d value (j, token ++ str_of_int k)
     = add_token rt (10 * k + d) value (j, token)
  /\ component rt [token ++ str_of_int k] d = component rt [token] (10 * k + d).
Proof.
  intros Hk Hd.
  assert (Hdigit : str_of_int d = [48 + d]).
  { assert (Hall : forallb (fun d0 => str_eqb (str_of_int d0) [48 + d0]) (range 10) = true)
      by (vm_compute; reflexivity).
    rewrite forallb_forall in Hall. apply str_eqb_eq. apply Hall. apply range_In. lia. }
  assert (Hcat : (token ++ str_of_int k) ++ str_of_int d = token ++ str_of_int (10 * k + d)).
  { rewrite <- app_assoc, Hdigit. now rewrite str_of_int_append_digit. }
  split; [now rewrite app_assoc|].
  split.
  - unfold add_token. now rewrite Hcat.
  - unfold component, enumerate. simpl. unfold add_token. now rewrite Hcat.
Qed.

Lemma suffix_feature_collision_witness :
  let rt := cpython (secret_of_seed 0) in
  1 <= 7 <= 76 /\ 0 <= 3 <= 9
  /\ component (F:=PrimFloat.float) rt [lit "ab7"] 3 = component rt [lit "ab"] 73.
Proof.
  cbv zeta.
  assert (Hk : 1 <= 7 <= 76) by lia.
  assert (Hd : 0 <= 3 <= 9) by lia.
  split; [exact Hk|]. split; [exact Hd|].
  exact (proj2 (proj2 (suffix_feature_collision (F:=PrimFloat.float)
                         (cpython (secret_of_seed 0)) (lit "ab") 7 3 0%nat (of_int 0) Hk Hd))).
Defined.

(** ** What the vector depends on *)

Section Dependence.

Context {F : Type} `{Arith F}.

Lemma tokenize_same_words (rt : Runtime) (a b : str) :
  Spec.words (str_lower rt a) = Spec.words (str_lower rt b) ->
  tokenize rt a = tokenize rt b.
Proof. intros Hwords. rewrite !tokenize_words. now rewrite Hwords. Qed.

(** Texts with the same words get the same vector and the same
    similarities: punctuation, the amount of white space and, for ASCII
    texts, the case of the letters do not matter. *)
Theorem embedding_depends_on_words (rt : Runtime) (a b other : str) :
  (Spec.words (str_lower rt a) = Spec.words (str_lower rt b) ->
   create_embedding (F:=F) rt a = create_embedding rt b
   /\ calculate_similarity (F:=F) rt a other = calculate_similarity rt b other)
  /\ (Forall is_ascii a -> Forall is_ascii b -> map ascii_lower a = map ascii_lower b ->
      create_embedding (F:=F) rt a = create_embedding rt b).
Proof.
  assert (Hsame : Spec.words (str_lower rt a) = Spec.words (str_lower rt b) ->
                  create_embedding (F:=F) rt a = create_embedding rt b).
  { intros Hwords. unfold create_embedding. cbv zeta.
    now rewrite (tokenize_same_words rt a b Hwords). }
  split.
  - intros Hwords. split; [now apply Hsame|].
    unfold calculate_similarity. cbv zeta. now rewrite (Hsame Hwords).
  - intros Ha Hb Hlower. apply Hsame.
    now rewrite (str_lower_ascii rt a Ha), (str_lower_ascii rt b Hb), Hlower.
Qed.

Lemma enumerate_from_In {A : Type} (l : list A) (start j : nat) (x : A) :
  In (j, x) (enumerate_from start l) -> In x l.
Proof.
  revert start. induction l as [|y l IH]; intros start; simpl.
  - intros [].
  - intros [Heq|Hin]; [left; congruence | right; now apply (IH (S start))].
Qed.

Lemma fold_left_same_in {A B : Type} (f g : A -> B -> A) (l : list B) (a : A) :
  (forall a x, In x l -> f a x = g a x) -> fold_left f l a = fold_left g l a.
Proof.
  revert a. induction l as [|x l IH]; intros a Hfg; simpl.
  - reflexivity.
  - rewrite Hfg by now left. apply IH. intros a' x' Hx'. apply Hfg. now right.
Qed.

(** The interpreter enters the vector through the tokens and through the
    residues modulo 1000 of the hashes of [token ++ str(i)] only: two
    interpreters that agree on them return the same vector. *)
Theorem embedding_depends_on_features (rt1 rt2 : Runtime) (text : str) :
  tokenize rt1 text = tokenize rt2 text ->
  (forall token i, In token (tokenize rt1 text) -> 0 <= i < 768 ->
     str_hash rt1 (token ++ str_of_int i) mod 1000
     = str_hash rt2 (token ++ str_of_int i) mod 1000) ->
  create_embedding (F:=F) rt1 text = create_embedding rt2 text.
Proof.
  intros Htokens Hfeatures. unfold create_embedding. cbv zeta. rewrite <- Htokens.
  f_equal. unfold raw_embedding. apply map_ext_in. intros i Hi.
  assert (Hrange : 0 <= i < 768).
  { unfold range in Hi. apply in_map_iff in Hi. destruct Hi as [n [<- Hn]].
    apply in_seq in Hn. unfold dimension in Hn. lia. }
  unfold component. f_equal.
  apply fold_left_same_in. intros value [j token] Hin.
  unfold add_token. rewrite Hfeatures; [reflexivity | | exact Hrange].
  now apply (enumerate_from_In _ 0%nat j).
Qed.

End Dependence.

Lemma embedding_depends_on_words_witness :
  let rt := cpython (secret_of_seed 0) in
  Spec.words (str_lower rt (lit "Hello, World!")) = Spec.words (str_lower rt (lit "hello   world"))
  /\ create_embedding (F:=PrimFloat.float) rt (lit "Hello, World!")
     = create_embedding rt (lit "hello   world")
  /\ Forall is_ascii (lit "Hello") /\ Forall is_ascii (lit "hELLO")
  /\ create_embedding (F:=PrimFloat.float) rt (lit "Hello") = create_embedding rt (lit "hELLO").
Proof.
  cbv zeta.
  assert (Hwords : Spec.words (str_lower (cpython (secret_of_seed 0)) (lit "Hello, World!"))
                   = Spec.words (str_lower (cpython (secret_of_seed 0)) (lit "hello   world")))
    by (vm_compute; reflexivity).
  assert (Ha : Forall is_ascii (lit "Hello"))
    by (repeat constructor; unfold is_ascii; simpl; lia).
  assert (Hb : Forall is_ascii (lit "hELLO"))
    by (repeat constructor; unfold is_ascii; simpl; lia).
  destruct (embedding_depends_on_words (F:=PrimFloat.float) (cpython (secret_of_seed 0))
              (lit "Hello, World!") (lit "hello   world") []) as [Hw _].
  destruct (embedding_depends_on_words (F:=PrimFloat.float) (cpython (secret_of_seed 0))
              (lit "Hello") (lit "hELLO") []) as [_ Hcase].
  split; [exact Hwords|]. split; [exact (proj1 (Hw Hwords))|].
  split; [exact Ha|]. split; [exact Hb|].
  exact (Hcase Ha Hb eq_refl).
Defined.

Lemma embedding_depends_on_features_witness :
  let rt1 := constant_hash 7 in
  let rt2 := constant_hash 1007 in
  tokenize rt1 (lit "hello") = tokenize rt2 (lit "hello")
  /\ create_embedding (F:=PrimFloat.float) rt1 (lit "hello") = create_embedding rt2 (lit "hello").
Proof.
  cbv zeta.
  assert (Htok : tokenize (constant_hash 7) (lit "hello") = tokenize (constant_hash 1007) (lit "hello"))
    by reflexivity.
  split; [exact Htok|].
  apply (embedding_depends_on_features (F:=PrimFloat.float) (constant_hash 7) (constant_hash 1007)
           (lit "hello") Htok).
  intros token i _ _. reflexivity.
Defined.

(** ** Tokenizing joined words *)

(** Joining words made of lower-case letters and digits with single
    spaces and tokenizing the result gives back the words that have at
    least 2 characters. *)
Theorem tokenize_join (rt : Runtime) (ws : list str) :
  Forall (fun w => w <> [] /\ Forall (fun c => is_lower_alnum c = true) w) ws ->
  tokenize rt (join [space] ws) = filter (fun w => 2 <=? len w) ws.
Proof.
  intros Hws.
  assert (Hchars : Forall (fun c => is_ascii c /\ ascii_lower c = c) (join [space] ws)).
  { apply Forall_join.
    - unfold is_ascii, space. split; [lia | reflexivity].
    - eapply Forall_impl; [|exact Hws]. intros w [_ Hw].
      eapply Forall_impl; [|exact Hw]. intros c Hc.
      destruct (lower_alnum_facts c Hc) as (H1 & H2 & _). now split. }
  rewrite tokenize_words, str_lower_ascii
    by (eapply Forall_impl; [|exact Hchars]; now intros c [Hc _]).
  replace (map ascii_lower (join [space] ws)) with (join [space] ws).
  - unfold Spec.words, Spec.fields. rewrite fields_join; [reflexivity | reflexivity |].
    eapply Forall_impl; [|exact Hws]. intros w [Hne Hw]. split; [exact Hne|].
    eapply Forall_impl; [|exact Hw]. intros c Hc. cbv beta.
    destruct (lower_alnum_facts c Hc) as (_ & _ & H3). now rewrite H3.
  - rewrite <- (map_id (join [space] ws)) at 1.
    apply map_ext_in. intros c Hc. rewrite Forall_forall in Hchars.
    symmetry. now apply Hchars.
Qed.

Lemma tokenize_join_witness :
  let rt := cpython (secret_of_seed 0) in
  let ws := [lit "hello"; lit "a"; lit "b2b"] in
  Forall (fun w => w <> [] /\ Forall (fun c => is_lower_alnum c = true) w) ws
  /\ tokenize rt (join [space] ws) = [lit "hello"; lit "b2b"].
Proof.
  cbv zeta.
  assert (Hws : Forall (fun w => w <> [] /\ Forall (fun c => is_lower_alnum c = true) w)
                  [lit "hello"; lit "a"; lit "b2b"])
    by (repeat constructor; discriminate).
  split; [exact Hws|].
  exact (tokenize_join (cpython (secret_of_seed 0)) [lit "hello"; lit "a"; lit "b2b"] Hws).
Defined.
